(** * The process manager of selfdrive/manager/manager.py

    A shallow embedding of [manager_init], [manager_prepare],
    [manager_cleanup], [is_running_on_wsl2], [manager_thread], [main] and
    the script body of [selfdrive/manager/manager.py], followed by the
    properties of the lifecycle loop, the ignore list, the default seeding,
    the two-phase stop and the failure paths.

    The Params store, [os.environ] and the few files the manager looks at
    are finite maps; [managed_processes] is the ordered list of its values;
    every call to a collaborator (Params writes, the message bus, the
    supervisor, sentry, the hardware) is recorded as an [Event], oldest
    first.  Python exceptions are values of [PyExc]; a computation is a
    function from the world to an [Outcome]. *)

From Stdlib Require Import String Ascii ZArith List Bool Lia.
From stdpp Require Import base gmap strings list.

Local Open Scope string_scope.
Local Open Scope Z_scope.
Local Open Scope list_scope.

(** ** Python built-ins used by the manager *)

Module Py.

(** [s.split(sep)] for a one-character separator. *)
Fixpoint split (sep : ascii) (s : string) : list string :=
  match s with
  | EmptyString => [EmptyString]
  | String c s' =>
      if Ascii.eqb c sep then EmptyString :: split sep s'
      else match split sep s' with
           | [] => [String c EmptyString]
           | x :: xs => String c x :: xs
           end
  end.

(** [sep.join(l)]. *)
Fixpoint join (sep : string) (l : list string) : string :=
  match l with
  | [] => EmptyString
  | [x] => x
  | x :: xs => x +:+ sep +:+ join sep xs
  end.

(** [c in s] for a character. *)
Fixpoint mem_char (c : ascii) (s : string) : bool :=
  match s with
  | EmptyString => false
  | String d s' => Ascii.eqb d c || mem_char c s'
  end.

(** [needle in hay] on strings. *)
Fixpoint contains (needle hay : string) : bool :=
  String.prefix needle hay ||
  match hay with
  | EmptyString => false
  | String _ hay' => contains needle hay'
  end.

(** ASCII white space, as [str.isspace] has it. *)
Definition is_space (c : ascii) : bool :=
  let n := nat_of_ascii c in
  ((9 <=? n) && (n <=? 13) || (28 <=? n) && (n <=? 32))%nat.

Definition is_digit (c : ascii) : bool :=
  let n := nat_of_ascii c in ((48 <=? n) && (n <=? 57))%nat.

Definition digit_val (c : ascii) : Z := Z.of_nat (nat_of_ascii c) - 48.

Fixpoint lstrip (s : string) : string :=
  match s with
  | String c s' => if is_space c then lstrip s' else s
  | EmptyString => EmptyString
  end.

Fixpoint rstrip (s : string) : string :=
  match s with
  | String c s' =>
      match rstrip s' with
      | EmptyString => if is_space c then EmptyString else String c EmptyString
      | r => String c r
      end
  | EmptyString => EmptyString
  end.

Definition strip (s : string) : string := rstrip (lstrip s).

(** What the scanner of a decimal literal has just read. *)
Inductive Seen := Nothing | Digit | Underscore.

(** Decimal digits, single underscores allowed between two digits. *)
Fixpoint digits (s : string) (seen : Seen) (acc : Z) : option Z :=
  match s with
  | EmptyString => match seen with Digit => Some acc | _ => None end
  | String c s' =>
      if is_digit c then digits s' Digit (10 * acc + digit_val c)
      else if Ascii.eqb c "_" then
        match seen with Digit => digits s' Underscore acc | _ => None end
      else None
  end.

(** [int(s)] on an ASCII string, base ten; [None] stands for
    [ValueError]. *)
Definition int (s : string) : option Z :=
  match strip s with
  | String "+" r => digits r Nothing 0
  | String "-" r => Z.opp <$> digits r Nothing 0
  | r => digits r Nothing 0
  end.

(** [bool(n)] for an integer. *)
Definition bool_of_int (n : Z) : bool := negb (n =? 0).

(** [bool(s)] for a string. *)
Definition truthy (s : string) : bool :=
  match s with EmptyString => false | _ => true end.

End Py.

(** ** Exceptions *)

(** The exceptions the manager raises or lets through.  [SystemExit] and
    [KeyboardInterrupt] derive from [BaseException] only; the others
    derive from [Exception]. *)
Inductive PyExc :=
| Exception (msg : string)
| ValueError (msg : string)
| KeyError (key : string)
| SystemExit (code : Z)
| KeyboardInterrupt.

(** [isinstance(e, Exception)], what [except Exception] catches. *)
Definition is_Exception (e : PyExc) : bool :=
  match e with
  | Exception _ | ValueError _ | KeyError _ => true
  | SystemExit _ | KeyboardInterrupt => false
  end.

(** ** Data *)

(** [ParamKeyType], the members the manager names. *)
Inductive ParamKeyType :=
| CLEAR_ON_MANAGER_START
| CLEAR_ON_ONROAD_TRANSITION
| CLEAR_ON_OFFROAD_TRANSITION
| DEVELOPMENT_ONLY.

(** A value of [managed_processes]: its name and [p.proc], which is
    [None] until the process was started and otherwise tells whether the
    child is alive; [stopping] records a pending stop request. *)
Record ManagerProcess := mkProc {
  name : string;
  proc : option bool;
  stopping : bool;
}.

(** [p.proc.is_alive()], false when there is no child. *)
Definition is_alive (p : ManagerProcess) : bool :=
  match proc p with Some b => b | None => false end.

(** Calls to collaborators, in the order they are made. *)
Inductive Event :=
| UnblockStdout
| SetTime
| Bootlog
| ModelSwitcher
| Remove (path : string)
| Mkdir (path : string)
| Print (s : string)
| CloudlogBind
| CloudlogBindGlobal (dongle_id : string)
| CloudlogInfo (s : string)
| CloudlogEnviron
| CloudlogDebug (s : string)
| CloudlogWarning (s : string)
| CloudlogException (s : string)
| AddFileHandler
| SentryInit
| SentryCapture
| PrintExc
| TextWindow (s : string)
| Register
| SetEnviron (k v : string)
| ParamsClearAll (t : ParamKeyType)
| ParamsPut (k v : string)
| WriteOnroadParams (started : bool)
| EnsureRunning (started : bool) (not_run : list string)
| SmUpdate
| PmSend (processes : list (string * bool))
| ProcPrepare (p : string)
| ProcStart (p : string)
| ProcStop (p : string) (block : bool)
| SignalSigterm
| HwUninstall
| HwReboot
| HwShutdown.

#[global] Instance PyExc_eq_dec : EqDecision PyExc.
Proof. solve_decision. Defined.
#[global] Instance ParamKeyType_eq_dec : EqDecision ParamKeyType.
Proof. solve_decision. Defined.
#[global] Instance Event_eq_dec : EqDecision Event.
Proof. solve_decision. Defined.

(** Outcome of [os.mkdir]. *)
Inductive MkdirResult := Created | FileExists | PermissionDenied.

(** Where inside a tick an exception surfaces: in the bounded wait for
    the next sample, in the supervisor, or in the heartbeat publish. *)
Inductive Stage := AtUpdate | AtEnsureRunning | AtSend.

#[global] Instance Stage_eq_dec : EqDecision Stage.
Proof. solve_decision. Defined.

(** What the surroundings deliver to one iteration of the loop. *)
Record Tick := mkTick {
  t_sample : option bool;          (* [deviceState.started] received; [None]: the poll timed out *)
  t_ext : list (string * string);  (* Params written by other processes since the last tick *)
  t_fault : option (Stage * PyExc);
  t_now : string;                  (* [str(datetime.datetime.now())] *)
}.

(** The mutable surroundings of the manager. *)
Record World := mkWorld {
  params : gmap string string;       (* the Params store *)
  environ : gmap string string;      (* [os.environ] *)
  files : gmap string string;        (* the files looked at, path to contents *)
  managed_processes : list ManagerProcess;
}.

(** ** Computations *)

Inductive Result (A : Type) :=
| Ok (a : A)
| Raise (e : PyExc)
| Waiting.   (* blocked in [sm.update()]: the samples supplied ran out *)
Arguments Ok {A} a.
Arguments Raise {A} e.
Arguments Waiting {A}.

Record Outcome (A : Type) := mkOutcome {
  res : Result A;
  final : World;
  events : list Event;
}.
Arguments mkOutcome {A} res final events.
Arguments res {A} o.
Arguments final {A} o.
Arguments events {A} o.

Definition M (A : Type) : Type := World → Outcome A.

#[global] Instance M_ret : MRet M := λ A a w, mkOutcome (Ok a) w [].

(** The outcome [o], with [ev] put in front of its events. *)
Definition prepend {A} (ev : list Event) (o : Outcome A) : Outcome A :=
  mkOutcome (res o) (final o) (ev ++ events o).

(** Sequencing: the second computation runs only when the first
    returned; the events are appended. *)
#[global] Instance M_bind : MBind M := λ A B f m w,
  let o := m w in
  match res o with
  | Ok a => prepend (events o) (f a (final o))
  | Raise e => mkOutcome (Raise e) (final o) (events o)
  | Waiting => mkOutcome Waiting (final o) (events o)
  end.

Definition raise {A} (e : PyExc) : M A := λ w, mkOutcome (Raise e) w [].
Definition waiting {A} : M A := λ w, mkOutcome Waiting w [].
Definition emit (e : Event) : M unit := λ w, mkOutcome (Ok tt) w [e].
Definition get_world : M World := λ w, mkOutcome (Ok w) w [].
Definition modify (f : World → World) : M unit := λ w, mkOutcome (Ok tt) (f w) [].

(** [try: body except Exception: handler], for a body returning [None];
    the handler is given the exception caught. *)
Definition try_except (body : M unit) (handler : PyExc → M unit) : M unit := λ w,
  let o := body w in
  match res o with
  | Raise e =>
      if is_Exception e then
        let o' := handler e (final o) in
        mkOutcome (res o') (final o') (events o ++ events o')
      else o
  | _ => o
  end.

(** [try: body finally: fin].  The [finally] block runs on return and on
    any exception; an exception of the block itself replaces the pending
    result. *)
Definition try_finally {A} (body : M A) (fin : M unit) : M A := λ w,
  let o := body w in
  match res o with
  | Waiting => o
  | r =>
      let o' := fin (final o) in
      mkOutcome (match res o' with
                 | Ok _ => r
                 | Raise e => Raise e
                 | Waiting => Waiting
                 end) (final o') (events o ++ events o')
  end.

(** [for x in l: body(x)]. *)
Fixpoint for_each {A} (l : list A) (body : A → M unit) : M unit :=
  match l with
  | [] => mret tt
  | x :: l' => body x ;; for_each l' body
  end.

(** ** Collaborators *)

(** Everything the manager imports and only reads or calls: build facts,
    constants of other modules, and the effect the external routines have
    on the store and on the process table. *)
Record Host := mkHost {
  PC : bool;
  is_release_branch : bool;
  is_tested_branch : bool;
  is_dirty : bool;
  get_version : string;
  terms_version : string;
  training_version : string;
  get_commit : string;
  get_short_branch : string;
  get_origin : string;
  UNREGISTERED_DONGLE_ID : string;
  CRASHES_DIR : string;
  LongitudinalPersonality_standard : string;  (* [str(log.LongitudinalPersonality.standard)] *)
  utcnow_isoformat : string;                   (* [datetime.datetime.utcnow().isoformat()] *)
  key_type : string → ParamKeyType → bool;     (* the flags of a Params key *)
  mkdir_shm : MkdirResult;                     (* what [os.mkdir("/dev/shm")] does *)
  register_fx : gmap string string → option string * gmap string string;
  write_onroad_params_fx : bool → gmap string string → gmap string string;
  ensure_running_fx : bool → list string → gmap string string →
                      list ManagerProcess → list ManagerProcess;
}.

(** *** The Params store *)

Module Store.

(** Modelled from the spec: [Params.get] of openpilot.common.params, which
    is not among the sources ("get(key) -> value|absent"). *)
Definition get (s : gmap string string) (k : string) : option string := s !! k.

(** Modelled from the spec: [Params.get_bool] ("getBool(key) -> bool");
    a flag reads true when its stored value is the one [put_bool] writes
    for [True]. *)
Definition get_bool (s : gmap string string) (k : string) : bool :=
  bool_decide (s !! k = Some "1").

(** Modelled from the spec: [Params.put] ("put(key, value)"). *)
Definition put (k v : string) (s : gmap string string) : gmap string string :=
  <[k := v]> s.

Definition bool_str (b : bool) : string := if b then "1" else "0".

(** Modelled from the spec: [Params.clear_all] ("clearAll(category)":
    "clearing a category removes exactly the keys tagged with it and no
    others"). *)
Definition clear_all (tagged : string → ParamKeyType → bool) (t : ParamKeyType)
    (s : gmap string string) : gmap string string :=
  filter (λ kv, tagged kv.1 t = false) s.

End Store.

Definition with_params (f : gmap string string → gmap string string) (w : World) : World :=
  mkWorld (f (params w)) (environ w) (files w) (managed_processes w).
Definition with_environ (f : gmap string string → gmap string string) (w : World) : World :=
  mkWorld (params w) (f (environ w)) (files w) (managed_processes w).
Definition with_files (f : gmap string string → gmap string string) (w : World) : World :=
  mkWorld (params w) (environ w) (f (files w)) (managed_processes w).
Definition with_procs (f : list ManagerProcess → list ManagerProcess) (w : World) : World :=
  mkWorld (params w) (environ w) (files w) (f (managed_processes w)).

Definition params_get (k : string) : M (option string) :=
  w ← get_world; mret (Store.get (params w) k).
Definition params_get_bool (k : string) : M bool :=
  w ← get_world; mret (Store.get_bool (params w) k).
Definition params_put (k v : string) : M unit :=
  modify (with_params (Store.put k v));; emit (ParamsPut k v).
Definition params_put_bool (k : string) (b : bool) : M unit :=
  params_put k (Store.bool_str b).

(** *** The operating system *)

Definition getenv (k : string) : M (option string) :=
  w ← get_world; mret (environ w !! k).
Definition setenv (k v : string) : M unit :=
  modify (with_environ (insert k v));; emit (SetEnviron k v).
Definition path_exists (p : string) : M bool :=
  w ← get_world; mret (bool_decide (is_Some (files w !! p))).
Definition os_remove (p : string) : M unit :=
  modify (with_files (delete p));; emit (Remove p).

(** [s.endswith("/")]. *)
Fixpoint ends_with_slash (s : string) : bool :=
  match s with
  | EmptyString => false
  | String c EmptyString => Ascii.eqb c "/"
  | String _ s' => ends_with_slash s'
  end.

(** [os.path.join(a, b)] for a relative [b]. *)
Definition path_join (a b : string) : string :=
  if bool_decide (a = "") then b
  else if ends_with_slash a then a +:+ b
  else a +:+ "/" +:+ b.

(** *** Managed processes *)

(** Modelled from the spec: [ManagerProcess.stop] of
    selfdrive/manager/process.py, which is not among the sources
    ("stop(block: bool)": a request sent "without waiting" leaves the
    worker as it is with the stop pending; after the wait for the
    "worker's stop to complete" the worker is not alive). *)
Definition stop_state (block : bool) (p : ManagerProcess) : ManagerProcess :=
  if block then mkProc (name p) ((λ _, false) <$> proc p) false
  else mkProc (name p) (proc p) true.

(** Modelled from the spec: [ManagerProcess.start] ("start()"): the worker
    has a live child afterwards. *)
Definition start_state (p : ManagerProcess) : ManagerProcess :=
  mkProc (name p) (Some true) false.

(** The methods act on the [i]-th value of [managed_processes]. *)
Definition proc_stop (block : bool) (i : nat) : M unit :=
  w ← get_world;
  match managed_processes w !! i with
  | Some p => modify (with_procs (alter (stop_state block) i));;
              emit (ProcStop (name p) block)
  | None => mret tt
  end.
Definition proc_prepare (i : nat) : M unit :=
  w ← get_world;
  match managed_processes w !! i with
  | Some p => emit (ProcPrepare (name p))
  | None => mret tt
  end.
Definition proc_start (i : nat) : M unit :=
  w ← get_world;
  match managed_processes w !! i with
  | Some p => modify (with_procs (alter start_state i));;
              emit (ProcStart (name p))
  | None => mret tt
  end.

(** [managed_processes[key]]: the position of the worker of that name, the
    dictionary being keyed by worker name; [KeyError] when there is none. *)
Fixpoint index_of (key : string) (l : list ManagerProcess) : option nat :=
  match l with
  | [] => None
  | p :: l' => if bool_decide (name p = key) then Some 0%nat
               else S <$> index_of key l'
  end.
Definition getitem (key : string) : M nat :=
  w ← get_world;
  match index_of key (managed_processes w) with
  | Some i => mret i
  | None => raise (KeyError key)
  end.

(** [for p in managed_processes.values(): body(p)]. *)
Definition for_values (body : nat → M unit) : M unit :=
  w ← get_world;
  for_each (seq 0 (length (managed_processes w))) body.

(** ** manager.py *)

Section Manager.

Context (H : Host).

Definition params_clear_all (t : ParamKeyType) : M unit :=
  modify (with_params (Store.clear_all (key_type H) t));; emit (ParamsClearAll t).

(** Modelled from the spec: [register] of selfdrive/athena/registration.py
    ("register(interactive: bool) -> identity|fail"). *)
Definition register : M (option string) :=
  emit Register;;
  w ← get_world;
  modify (with_params (λ s, (register_fx H s).2));;
  mret (register_fx H (params w)).1.

(** Modelled from the spec: [write_onroad_params] of
    selfdrive/manager/helpers.py ("notify the external safety-parameter
    writer of the new state"). *)
Definition write_onroad_params (started : bool) : M unit :=
  modify (with_params (write_onroad_params_fx H started));;
  emit (WriteOnroadParams started).

(** Modelled from the spec: [ensure_running] of
    selfdrive/manager/process.py ("Supervisor.ensureRunning(workers,
    onRoad: bool, ignoreSet, carParams)"); [fault] is the exception it
    raises on this call, if any. *)
Definition ensure_running (started : bool) (not_run : list string)
    (fault : option PyExc) : M unit :=
  match fault with
  | Some e => raise e
  | None =>
      w ← get_world;
      modify (with_procs (ensure_running_fx H started not_run (params w)));;
      emit (EnsureRunning started not_run)
  end.

(** The literal part of [default_params]. *)
Definition default_params_literal : list (string * string) :=
  [ ("CompletedTrainingVersion", "0");
    ("DisengageOnAccelerator", "0");
    ("GsmMetered", "1");
    ("HasAcceptedTerms", "0");
    ("LanguageSetting", "main_en");
    ("OpenpilotEnabledToggle", "1");
    ("LongitudinalPersonality", LongitudinalPersonality_standard H);
    ("ShowDebugUI", "0");
    ("ShowDateTime", "1");
    ("ShowHudMode", "4");
    ("ShowSteerRotate", "1");
    ("ShowPathEnd", "1");
    ("ShowAccelRpm", "1");
    ("ShowTpms", "1");
    ("ShowSteerMode", "2");
    ("ShowDeviceState", "1");
    ("ShowConnInfo", "1");
    ("ShowLaneInfo", "1");
    ("ShowBlindSpot", "1");
    ("ShowGapInfo", "1");
    ("ShowDmInfo", "1");
    ("ShowRadarInfo", "1");
    ("MixRadarInfo", "0");
    ("ShowZOffset", "122");
    ("ShowPathMode", "9");
    ("ShowPathColor", "12");
    ("ShowPathModeCruiseOff", "0");
    ("ShowPathColorCruiseOff", "19");
    ("ShowPathModeLane", "12");
    ("ShowPathColorLane", "13");
    ("ShowPathWidth", "100");
    ("ShowPlotMode", "0");
    ("AutoResumeFromGasSpeed", "0");
    ("AutoCancelFromGasMode", "0");
    ("AutoCruiseControl", "0");
    ("MapboxStyle", "0");
    ("AutoCurveSpeedCtrlUse", "0");
    ("AutoCurveSpeedFactor", "100");
    ("AutoCurveSpeedFactorIn", "50");
    ("AutoTurnControl", "0");
    ("AutoTurnControlSpeedLaneChange", "60");
    ("AutoTurnControlSpeedTurn", "20");
    ("AutoTurnControlTurnEnd", "6");
    ("AutoNaviSpeedCtrlEnd", "6");
    ("AutoNaviSpeedBumpTime", "1");
    ("AutoNaviSpeedBumpSpeed", "35");
    ("AutoNaviSpeedSafetyFactor", "105");
    ("AutoNaviSpeedDecelRate", "80");
    ("AutoResumeFromBrakeReleaseTrafficSign", "0");
    ("StartAccelApply", "0");
    ("StopAccelApply", "50");
    ("StoppingAccel", "-80");
    ("AutoSpeedUptoRoadSpeedLimit", "100");
    ("AChangeCost", "200");
    ("AChangeCostStart", "40");
    ("ALeadTau", "150");
    ("ALeadTauStart", "50");
    ("TrafficStopMode", "1");
    ("CruiseButtonMode", "0");
    ("CruiseSpeedUnit", "10");
    ("MyDrivingMode", "3");
    ("MySafeModeFactor", "60");
    ("LiveSteerRatioApply", "100");
    ("MyEcoModeFactor", "80");
    ("CruiseMaxVals1", "160");
    ("CruiseMaxVals2", "120");
    ("CruiseMaxVals3", "100");
    ("CruiseMaxVals4", "80");
    ("CruiseMaxVals5", "70");
    ("CruiseMaxVals6", "60");
    ("CruiseSpeedMin", "10");
    ("LongitudinalTuningKpV", "100");
    ("LongitudinalTuningKiV", "0");
    ("LongitudinalTuningKf", "100");
    ("LongitudinalActuatorDelayUpperBound", "50");
    ("LongitudinalActuatorDelayLowerBound", "50");
    ("EnableRadarTracks", "0");
    ("SccConnectedBus2", "0");
    ("SoundVolumeAdjust", "100");
    ("SoundVolumeAdjustEngage", "10");
    ("TFollowSpeedAdd", "0");
    ("TFollowSpeedAddM", "0");
    ("SoftHoldMode", "0");
    ("CruiseEcoControl", "4");
    ("UseLaneLineSpeed", "0");
    ("AdjustLaneOffset", "0");
    ("AdjustCurveOffset", "0");
    ("UseModelPath", "0");
    ("PathOffset", "0");
    ("LateralTorqueCustom", "0");
    ("LateralTorqueAccelFactor", "2500");
    ("LateralTorqueFriction", "100");
    ("SteerActuatorDelay", "40");
    ("CruiseOnDist", "0");
    ("SteerRatioApply", "0");
    ("StartRecord", "0");
    ("StopRecord", "0") ].

(** [default_params] as it stands when the seeding loop starts. *)
Definition default_params : list (string * string) :=
  default_params_literal ++
  (if PC H then [] else [("LastUpdateTime", utcnow_isoformat H)]).

(** The loop under [# set unset params]. *)
Definition set_unset_params (table : list (string * string)) : M unit :=
  for_each table (λ kv,
    cur ← params_get kv.1;
    match cur with
    | None => params_put kv.1 kv.2
    | Some _ => mret tt
    end).

(** The statement under [# is this dashcam?]. *)
Definition passive_override : M unit :=
  env ← getenv "PASSIVE";
  match env with
  | Some s =>
      match Py.int s with
      | Some n => params_put_bool "Passive" (Py.bool_of_int n)
      | None => raise (ValueError ("invalid literal for int() with base 10: " +:+ s))
      end
  | None => mret tt
  end.

(** [f"{x}"] for the result of [Params.get]: bytes or [None]. *)
Definition fmt_bytes (o : option string) : string :=
  match o with
  | Some s => "b'" +:+ s +:+ "'"
  | None => "None"
  end.

(** [manager_init] up to and including the passive override. *)
Definition manager_init_head : M unit :=
  emit SetTime;;
  emit Bootlog;;
  params_clear_all CLEAR_ON_MANAGER_START;;
  params_clear_all CLEAR_ON_ONROAD_TRANSITION;;
  params_clear_all CLEAR_ON_OFFROAD_TRANSITION;;
  (if is_release_branch H then params_clear_all DEVELOPMENT_ONLY else mret tt);;
  lock ← params_get_bool "RecordFrontLock";
  (if (lock : bool) then params_put_bool "RecordFront" true else mret tt);;
  set_unset_params default_params;;
  passive_override.

(** [manager_init] from the passive check on. *)
Definition manager_init_tail : M unit :=
  passive ← params_get "Passive";
  match passive with
  | None => raise (Exception "Passive must be set to continue")
  | Some _ => mret tt
  end;;
  match mkdir_shm H with
  | Created => emit (Mkdir "/dev/shm")
  | FileExists => mret tt
  | PermissionDenied => emit (Print "WARNING: failed to make /dev/shm")
  end;;
  params_put "Version" (get_version H);;
  params_put "TermsVersion" (terms_version H);;
  params_put "TrainingVersion" (training_version H);;
  params_put "GitCommit" (get_commit H);;
  params_put "GitBranch" (get_short_branch H);;
  params_put "GitRemote" (get_origin H);;
  params_put_bool "IsTestedBranch" (is_tested_branch H);;
  params_put_bool "IsReleaseBranch" (is_release_branch H);;
  reg_res ← register;
  dongle_id ←
    match reg_res with
    | Some d =>
        if Py.truthy d then mret d
        else serial ← params_get "HardwareSerial";
             raise (Exception ("Registration failed for device " +:+ fmt_bytes serial))
    | None =>
        serial ← params_get "HardwareSerial";
        raise (Exception ("Registration failed for device " +:+ fmt_bytes serial))
    end;
  setenv "DONGLE_ID" dongle_id;;
  (if negb (is_dirty H) then setenv "CLEAN" "1" else mret tt);;
  emit SentryInit;;
  emit (CloudlogBindGlobal dongle_id);;
  isfile ← path_exists (path_join (CRASHES_DIR H) "error.txt");
  (if (isfile : bool) then os_remove (path_join (CRASHES_DIR H) "error.txt") else mret tt).

Definition manager_init : M unit :=
  manager_init_head;; manager_init_tail.

Definition manager_prepare : M unit :=
  for_values proc_prepare.

Definition manager_cleanup : M unit :=
  for_values (proc_stop false);;
  for_values (proc_stop true);;
  emit (CloudlogInfo "everything is dead").

Definition is_running_on_wsl2 : M bool :=
  w ← get_world;
  match files w !! "/proc/version" with
  | Some contents => mret (Py.contains "WSL2" contents || Py.contains "Ubuntu" contents)
  | None => mret false
  end.

(** The list [ignore] built at the top of [manager_thread]. *)
Definition ignore (w : World) : list string :=
  (if bool_decide (params w !! "DongleId" = None
                   ∨ params w !! "DongleId" = Some (UNREGISTERED_DONGLE_ID H))
   then ["manage_athenad"; "uploader"] else []) ++
  (if bool_decide (is_Some (environ w !! "NOBOARD")) then ["pandad"] else []) ++
  filter (λ x, (0 < String.length x)%nat)
         (Py.split "," (default "" (environ w !! "BLOCK"))).

Definition ESC : string := String "027"%char EmptyString.

(** The coloured process list [running]. *)
Definition running (l : list ManagerProcess) : string :=
  Py.join " "
    (map (λ p, (if is_alive p then ESC +:+ "[32m" else ESC +:+ "[31m")
               +:+ name p +:+ ESC +:+ "[0m")
         (filter (λ p, is_Some (proc p)) l)).

(** Modelled from the spec: [get_process_state_msg] ("for every
    WorkerDescriptor, its liveness and status summary"), reduced to name
    and liveness. *)
Definition process_state_msgs (l : list ManagerProcess) : list (string * bool) :=
  map (λ p, (name p, is_alive p)) l.

(** [sm.update()]: waits for the next sample; meanwhile other processes
    may have written to the store. *)
Definition sm_update (t : Tick) : M unit :=
  emit SmUpdate;;
  modify (with_params (λ s, foldl (λ s kv, Store.put kv.1 kv.2 s) s (t_ext t)));;
  match t_fault t with
  | Some (AtUpdate, e) => raise e
  | _ => mret tt
  end.

Definition fault_at (st : Stage) (t : Tick) : option PyExc :=
  match t_fault t with
  | Some (st', e) => if bool_decide (st' = st) then Some e else None
  | None => None
  end.

Definition pm_send (t : Tick) (msg : list (string * bool)) : M unit :=
  match fault_at AtSend t with
  | Some e => raise e
  | None => emit (PmSend msg)
  end.

(** The [for param in (...)] loop; [shutdown] is the variable it sets. *)
Fixpoint shutdown_flags (flags : list string) (now : string) (shutdown : bool) : M bool :=
  match flags with
  | [] => mret shutdown
  | param :: rest =>
      set ← params_get_bool param;
      fire ← (if (set : bool)
              then wsl ← is_running_on_wsl2; mret (negb wsl)
              else mret false);
      if (fire : bool) then
        params_put "LastManagerExitReason" (param +:+ " " +:+ now);;
        emit (CloudlogWarning ("Shutting down manager - " +:+ param +:+ " set"));;
        shutdown_flags rest now true
      else shutdown_flags rest now shutdown
  end.

(** One iteration of [while True]; returns [shutdown] and the next
    [print_timer] and [started_prev].  [sm['deviceState'].started] is the
    last value received, [False] before the first one: this is the value
    of [started_prev], which is assigned from it at every iteration. *)
Definition loop_body (not_run : list string) (t : Tick) (print_timer : Z)
    (started_prev : bool) : M (bool * Z * bool) :=
  sm_update t;;
  let started := default started_prev (t_sample t) in
  (if started && negb started_prev
   then params_clear_all CLEAR_ON_ONROAD_TRANSITION
   else if negb started && started_prev
        then params_clear_all CLEAR_ON_OFFROAD_TRANSITION
        else mret tt);;
  (if negb (Bool.eqb started started_prev)
   then write_onroad_params started else mret tt);;
  ensure_running started not_run (fault_at AtEnsureRunning t);;
  w ← get_world;
  let print_timer := (print_timer + 1) mod 10 in
  (if print_timer =? 0
   then emit (Print (running (managed_processes w))) else mret tt);;
  emit (CloudlogDebug (running (managed_processes w)));;
  pm_send t (process_state_msgs (managed_processes w));;
  shutdown ← shutdown_flags ["DoUninstall"; "DoShutdown"; "DoReboot"] (t_now t) false;
  mret (shutdown, print_timer, started).

(** [while True: ...] over the samples the bus delivers. *)
Fixpoint manager_loop (not_run : list string) (ticks : list Tick) (print_timer : Z)
    (started_prev : bool) : M unit :=
  match ticks with
  | [] => waiting
  | t :: ticks' =>
      r ← loop_body not_run t print_timer started_prev;
      if (r.1.1 : bool) then mret tt
      else manager_loop not_run ticks' r.1.2 r.2
  end.

Definition manager_thread (ticks : list Tick) : M unit :=
  emit CloudlogBind;;
  emit (CloudlogInfo "manager start");;
  emit CloudlogEnviron;;
  w ← get_world;
  let not_run := ignore w in
  write_onroad_params false;;
  ensure_running false not_run None;;
  manager_loop not_run ticks 0 false.

(** The [if]/[elif] chain that ends [main]. *)
Definition power_action : M unit :=
  uninstall ← params_get_bool "DoUninstall";
  if (uninstall : bool) then
    emit (CloudlogWarning "uninstalling");; emit HwUninstall
  else
    reboot ← params_get_bool "DoReboot";
    if (reboot : bool) then
      emit (CloudlogWarning "reboot");; emit HwReboot
    else
      shutdown ← params_get_bool "DoShutdown";
      if (shutdown : bool) then
        emit (CloudlogWarning "shutdown");; emit HwShutdown
      else mret tt.

(** [main] from the installation of the SIGTERM handler on. *)
Definition main_run (ticks : list Tick) : M unit :=
  emit SignalSigterm;;
  try_finally
    (try_except (manager_thread ticks) (λ _, emit PrintExc;; emit SentryCapture))
    manager_cleanup;;
  power_action.

Definition main (ticks : list Tick) : M unit :=
  env ← getenv "PREPAREONLY";
  let prepare_only := bool_decide (is_Some (env : option string)) in
  manager_init;;
  prebuilt ← path_exists "/data/openpilot/prebuilt";
  (if (prebuilt : bool) then os_remove "/data/openpilot/prebuilt" else mret tt);;
  emit ModelSwitcher;;
  (if negb prepare_only then ui ← getitem "ui"; proc_start ui else mret tt);;
  manager_prepare;;
  if prepare_only then mret tt
  else main_run ticks.

(** The body of [if __name__ == "__main__"]; [sys.exit(0)] ends it with
    [SystemExit(0)].  The text shown is the headline, without the
    traceback lines. *)
Definition script (ticks : list Tick) : M unit :=
  emit UnblockStdout;;
  try_except (main ticks) (λ e,
    emit AddFileHandler;;
    emit (CloudlogException "Manager failed to start");;
    try_except (ui ← getitem "ui"; proc_stop true ui) (λ _, mret tt);;
    emit (TextWindow "Manager failed to start");;
    raise e);;
  raise (SystemExit 0).

End Manager.

(** ** A concrete device *)

Module Scenario.

(** A host in the manner of the real collaborators: the three request
    flags are cleared at manager start, [IsOnroad] on the off-road
    transition; registration stores and returns the dongle id; the
    supervisor starts every worker that is not ignored and stops the
    ignored ones. *)
Definition host : Host := {|
  PC := false;
  is_release_branch := false;
  is_tested_branch := false;
  is_dirty := true;
  get_version := "0.9.6";
  terms_version := "2";
  training_version := "0.2.0";
  get_commit := "c0ffee";
  get_short_branch := "carrot";
  get_origin := "https://github.com/ajouatom/carrotpilot.git";
  UNREGISTERED_DONGLE_ID := "UnregisteredDevice";
  CRASHES_DIR := "/data/community/crashes/";
  LongitudinalPersonality_standard := "standard";
  utcnow_isoformat := "2024-01-01T00:00:00";
  key_type := λ k t,
    match t with
    | CLEAR_ON_MANAGER_START =>
        bool_decide (k ∈ ["DoUninstall"; "DoShutdown"; "DoReboot"])
    | CLEAR_ON_ONROAD_TRANSITION => bool_decide (k = "CurrentRoute")
    | CLEAR_ON_OFFROAD_TRANSITION => bool_decide (k = "CarParams")
    | DEVELOPMENT_ONLY => false
    end;
  mkdir_shm := FileExists;
  register_fx := λ s, (Some "0123456789abcdef", <["DongleId" := "0123456789abcdef"]> s);
  write_onroad_params_fx := λ started s,
    <["IsOffroad" := Store.bool_str (negb started)]>
      (<["IsOnroad" := Store.bool_str started]> s);
  ensure_running_fx := λ started not_run _ l,
    map (λ p, if bool_decide (name p ∈ not_run)
              then mkProc (name p) None false else start_state p) l;
|}.

Definition workers : list ManagerProcess :=
  map (λ n, mkProc n None false) ["ui"; "pandad"; "uploader"; "manage_athenad"; "logcatd"].

(** A device that was set up before: [Passive] is stored. *)
Definition world : World := {|
  params := {[ "Passive" := "0"; "DongleId" := "0123456789abcdef" ]};
  environ := ∅;
  files := {[ "/proc/version" := "Linux version 4.9.103+ (gcc version 6.4.9)" ]};
  managed_processes := workers;
|}.

Definition steady (started : bool) : Tick :=
  mkTick (Some started) [] None "2024-01-01 00:00:01".

(** Off-road, off-road, on-road, on-road, off-road. *)
Definition road_trip : list Tick := map steady [false; false; true; true; false].

(** The sample that cuts the loop short with the exit request of the
    SIGTERM handler. *)
Definition sigterm_tick : Tick :=
  mkTick None [] (Some (AtUpdate, SystemExit 1)) "2024-01-01 00:00:02".

(** A development host: [/proc/version] names WSL2, and a shutdown was
    requested. *)
Definition wsl_world : World := {|
  params := {[ "Passive" := "0"; "DongleId" := "0123456789abcdef"; "DoShutdown" := "1" ]};
  environ := ∅;
  files := {[ "/proc/version" := "Linux version 5.15.90.1-microsoft-standard-WSL2" ]};
  managed_processes := workers;
|}.

(** A sample before which both an uninstall and a shutdown were
    requested. *)
Definition both_flags_tick : Tick :=
  mkTick (Some false) [("DoUninstall", "1"); ("DoShutdown", "1")] None
         "2024-01-01 00:00:03".

(** A device that was never set up: nothing is stored. *)
Definition fresh_world : World := {|
  params := ∅;
  environ := ∅;
  files := {[ "/proc/version" := "Linux version 4.9.103+ (gcc version 6.4.9)" ]};
  managed_processes := workers;
|}.

(** The set-up device, asked to prepare only. *)
Definition prepare_world : World :=
  with_environ (insert "PREPAREONLY" "1") world.

(** A poll that times out. *)
Definition timeout_tick : Tick := mkTick None [] None "2024-01-01 00:00:04".


(** The set-up device with a user's choice of language stored. *)
Definition korean_world : World :=
  with_params (insert "LanguageSetting" "main_ko") world.

(** A host on which registration fails. *)
Definition unregistered_host : Host := {|
  PC := PC host;
  is_release_branch := is_release_branch host;
  is_tested_branch := is_tested_branch host;
  is_dirty := is_dirty host;
  get_version := get_version host;
  terms_version := terms_version host;
  training_version := training_version host;
  get_commit := get_commit host;
  get_short_branch := get_short_branch host;
  get_origin := get_origin host;
  UNREGISTERED_DONGLE_ID := UNREGISTERED_DONGLE_ID host;
  CRASHES_DIR := CRASHES_DIR host;
  LongitudinalPersonality_standard := LongitudinalPersonality_standard host;
  utcnow_isoformat := utcnow_isoformat host;
  key_type := key_type host;
  mkdir_shm := mkdir_shm host;
  register_fx := λ s, (None, s);
  write_onroad_params_fx := write_onroad_params_fx host;
  ensure_running_fx := ensure_running_fx host;
|}.

(** The set-up device started with [PASSIVE] set to 1. *)
Definition passive_world : World :=
  with_environ (insert "PASSIVE" "1") fresh_world.

(** The set-up device without a ui process. *)
Definition headless_world : World :=
  with_procs (λ _, map (λ n, mkProc n None false) ["pandad"; "uploader"]) world.

(** The set-up device with a shutdown request left over from the last
    run. *)
Definition stale_world : World :=
  with_params (insert "DoShutdown" "1") world.

(** The set-up device with the front recording locked on and a
    prebuilt marker on disk. *)
Definition locked_world : World :=
  with_files (insert "/data/openpilot/prebuilt" "")
    (with_params (insert "RecordFrontLock" "1") world).

(** A sample during which the supervisor fails. *)
Definition failing_tick : Tick :=
  mkTick (Some false) [] (Some (AtEnsureRunning, Exception "boom")) "2024-01-01 00:00:02".

End Scenario.

(** ** Observations on traces *)

(** [emits_only P m]: whatever the world, [m] makes only calls that
    satisfy [P]. *)
Definition emits_only {A} (P : Event → Prop) (m : M A) : Prop :=
  ∀ w, Forall P (events (m w)).

(** The categories cleared before the first [sm.update()] of a trace, and
    after each [sm.update()] up to the next one. *)
Fixpoint clears (l : list Event) : list ParamKeyType * list (list ParamKeyType) :=
  match l with
  | [] => ([], [])
  | SmUpdate :: l' => ([], (clears l').1 :: (clears l').2)
  | ParamsClearAll t :: l' => (t :: (clears l').1, (clears l').2)
  | _ :: l' => clears l'
  end.

(** The categories cleared in each iteration of the loop, by index. *)
Definition clears_per_tick (l : list Event) : list (list ParamKeyType) :=
  (clears l).2.

(** The calls made before the first [sm.update()]. *)
Fixpoint before_first_update (l : list Event) : list Event :=
  match l with
  | [] => []
  | SmUpdate :: _ => []
  | e :: l' => e :: before_first_update l'
  end.

(** The first value a table gives to a key. *)
Fixpoint first_binding (k : string) (table : list (string * string)) : option string :=
  match table with
  | [] => None
  | kv :: table' => if bool_decide (kv.1 = k) then Some kv.2 else first_binding k table'
  end.

(** The store after the seeding pass over a table. *)
Fixpoint seed (table : list (string * string)) (s : gmap string string)
    : gmap string string :=
  match table with
  | [] => s
  | kv :: table' =>
      match s !! kv.1 with
      | None => seed table' (<[kv.1 := kv.2]> s)
      | Some _ => seed table' s
      end
  end.

(** The writes of the seeding pass over a table. *)
Fixpoint seed_events (table : list (string * string)) (s : gmap string string)
    : list Event :=
  match table with
  | [] => []
  | kv :: table' =>
      match s !! kv.1 with
      | None => ParamsPut kv.1 kv.2 :: seed_events table' (<[kv.1 := kv.2]> s)
      | Some _ => seed_events table' s
      end
  end.

(** No string occurs twice. *)
Fixpoint distinct (l : list string) : bool :=
  match l with
  | [] => true
  | x :: l' => negb (existsb (String.eqb x) l') && distinct l'
  end.

(** The calls an iteration of the loop can make when the ignore list is
    [not_run]. *)
Definition loop_event (not_run : list string) (e : Event) : Prop :=
  match e with
  | SmUpdate | Print _ | CloudlogDebug _ | PmSend _
  | WriteOnroadParams _ | CloudlogWarning _ => True
  | ParamsClearAll t =>
      t = CLEAR_ON_ONROAD_TRANSITION ∨ t = CLEAR_ON_OFFROAD_TRANSITION
  | EnsureRunning _ l => l = not_run
  | ParamsPut k _ => k = "LastManagerExitReason"
  | _ => False
  end.

(** The calls [manager_thread] can make. *)
Definition thread_event (not_run : list string) (e : Event) : Prop :=
  loop_event not_run e
  ∨ e = CloudlogBind ∨ e = CloudlogInfo "manager start" ∨ e = CloudlogEnviron.

(** Calls that neither start an iteration nor clear a category. *)
Definition inert (e : Event) : Prop :=
  match e with
  | SmUpdate | ParamsClearAll _ => False
  | _ => True
  end.

(** The category the loop clears on the edge from [started_prev] to
    [started]. *)
Definition edge_clears (started_prev started : bool) : list ParamKeyType :=
  match started_prev, started with
  | false, true => [CLEAR_ON_ONROAD_TRANSITION]
  | true, false => [CLEAR_ON_OFFROAD_TRANSITION]
  | _, _ => []
  end.

(** What [is_running_on_wsl2] answers in a world. *)
Definition on_wsl2 (w : World) : bool :=
  match files w !! "/proc/version" with
  | Some contents => Py.contains "WSL2" contents || Py.contains "Ubuntu" contents
  | None => false
  end.

(** What the loop clears in each iteration, for the samples of [ticks],
    when the previous value of [started] is [started_prev]. *)
Fixpoint transitions (started_prev : bool) (ticks : list Tick) : list (list ParamKeyType) :=
  match ticks with
  | [] => []
  | t :: ticks' =>
      let started := default started_prev (t_sample t) in
      edge_clears started_prev started :: transitions started ticks'
  end.

(** Calls other than a write to the store. *)
Definition no_put (e : Event) : Prop :=
  match e with
  | ParamsPut _ _ => False
  | _ => True
  end.

(** An iteration of the loop that ends with [shutdown] set. *)
Definition fires (r : Result (bool * Z * bool)) : Prop :=
  ∃ pt st, r = Ok (true, pt, st).

(** [m] writes to the store only in a run that ends with [shutdown]
    set. *)
Definition puts_only_if_fires (m : M (bool * Z * bool)) : Prop :=
  ∀ w, Forall no_put (events (m w)) ∨ fires (res (m w)).

(** The marker [manager_cleanup] logs when it is done. *)
Definition everything_is_dead : Event := CloudlogInfo "everything is dead".

(** The stop calls of [manager_cleanup]. *)
Definition is_stop (e : Event) : Prop :=
  match e with
  | ProcStop _ _ => True
  | _ => False
  end.

(** The calls of the power action. *)
Definition is_power (e : Event) : Prop :=
  match e with
  | CloudlogWarning _ | HwUninstall | HwReboot | HwShutdown => True
  | _ => False
  end.

(** The calls to the hardware that end the device's run. *)
Definition is_hw (e : Event) : Prop :=
  match e with
  | HwUninstall | HwReboot | HwShutdown => True
  | _ => False
  end.

(** The calls of a run that only initialises and prepares. *)
Definition prepare_event (e : Event) : Prop :=
  match e with
  | SetTime | Bootlog | ParamsClearAll _ | ParamsPut _ _ | Mkdir _ | Print _
  | Register | SetEnviron _ _ | SentryInit | CloudlogBindGlobal _ | Remove _
  | ModelSwitcher | ProcPrepare _ => True
  | _ => False
  end.

(** The calls that show the loop was entered. *)
Definition loop_entered (e : Event) : Prop :=
  match e with
  | SignalSigterm | CloudlogBind | CloudlogInfo _ | SmUpdate
  | EnsureRunning _ _ | WriteOnroadParams _ | PmSend _ => True
  | _ => False
  end.

(** [keeps f m]: [m] leaves the part [f] of the world as it found it. *)
Definition keeps {A B} (f : World → B) (m : M A) : Prop :=
  ∀ w, f (final (m w)) = f w.

(** The value of [started] in an iteration: the sample, or the previous
    value when the poll timed out. *)
Definition sampled (started_prev : bool) (t : Tick) : bool :=
  default started_prev (t_sample t).

(** The store as an iteration without a fault has it when it calls the
    supervisor: the writes of other processes, then the clear of the
    edge, then the on-road parameters if [started] changed. *)
Definition tick_params (H : Host) (started_prev : bool) (t : Tick)
    (s : gmap string string) : gmap string string :=
  let started := sampled started_prev t in
  let s1 := foldl (λ s kv, Store.put kv.1 kv.2 s) s (t_ext t) in
  let s2 := foldr (Store.clear_all (key_type H)) s1 (edge_clears started_prev started) in
  if Bool.eqb started started_prev then s2
  else write_onroad_params_fx H started s2.

(** The process table the supervisor leaves in that iteration. *)
Definition tick_procs (H : Host) (not_run : list string) (started_prev : bool)
    (t : Tick) (w : World) : list ManagerProcess :=
  ensure_running_fx H (sampled started_prev t) not_run
    (tick_params H started_prev t (params w)) (managed_processes w).

(** The world in which an iteration without a fault evaluates the
    flags. *)
Definition tick_world (H : Host) (not_run : list string) (started_prev : bool)
    (t : Tick) (w : World) : World :=
  mkWorld (tick_params H started_prev t (params w)) (environ w) (files w)
          (tick_procs H not_run started_prev t w).

(** The calls of an iteration without a fault, up to the flags. *)
Definition tick_events (H : Host) (not_run : list string) (print_timer : Z)
    (started_prev : bool) (t : Tick) (w : World) : list Event :=
  let started := sampled started_prev t in
  let procs := tick_procs H not_run started_prev t w in
  [SmUpdate]
  ++ map ParamsClearAll (edge_clears started_prev started)
  ++ (if Bool.eqb started started_prev then [] else [WriteOnroadParams started])
  ++ [EnsureRunning started not_run]
  ++ (if (print_timer + 1) `mod` 10 =? 0 then [Print (running procs)] else [])
  ++ [CloudlogDebug (running procs); PmSend (process_state_msgs procs)].

(** The calls of the flag loop. *)
Definition flag_event (e : Event) : Prop :=
  match e with
  | ParamsPut _ _ | CloudlogWarning _ => True
  | _ => False
  end.

(** The calls an iteration makes after it has called the supervisor. *)
Definition after_supervisor (e : Event) : Prop :=
  match e with
  | Print _ | CloudlogDebug _ | PmSend _ | ParamsPut _ _ | CloudlogWarning _ => True
  | _ => False
  end.

(** The heartbeats published in a trace. *)
Fixpoint sends (l : list Event) : list (list (string * bool)) :=
  match l with
  | [] => []
  | PmSend msg :: l' => msg :: sends l'
  | _ :: l' => sends l'
  end.

(** [P] is an invariant of [m]. *)
Definition stable {A} (P : World → Prop) (m : M A) : Prop :=
  ∀ w, P w → P (final (m w)).

(** On a host where [is_running_on_wsl2] holds, [m] does not end with
    [shutdown] set. *)
Definition quiet_on_wsl (m : M (bool * Z * bool)) : Prop :=
  ∀ w, on_wsl2 w = true → ¬ fires (res (m w)).



(** How often a trace prints the process list, and how often it logs
    it. *)
Fixpoint prints (l : list Event) : nat :=
  match l with
  | [] => 0
  | Print _ :: l' => S (prints l')
  | _ :: l' => prints l'
  end.
Fixpoint debugs (l : list Event) : nat :=
  match l with
  | [] => 0
  | CloudlogDebug _ :: l' => S (debugs l')
  | _ :: l' => debugs l'
  end.

(** The store after the eight writes under [# set version params]. *)
Definition versioned (H : Host) (s : gmap string string) : gmap string string :=
  Store.put "IsReleaseBranch" (Store.bool_str (is_release_branch H))
    (Store.put "IsTestedBranch" (Store.bool_str (is_tested_branch H))
       (Store.put "GitRemote" (get_origin H)
          (Store.put "GitBranch" (get_short_branch H)
             (Store.put "GitCommit" (get_commit H)
                (Store.put "TrainingVersion" (training_version H)
                   (Store.put "TermsVersion" (terms_version H)
                      (Store.put "Version" (get_version H) s))))))).

(** The keys [manager_init] writes whatever they hold. *)
Definition init_written_keys : list string :=
  ["RecordFront"; "Passive"; "Version"; "TermsVersion"; "TrainingVersion";
   "GitCommit"; "GitBranch"; "GitRemote"; "IsTestedBranch"; "IsReleaseBranch"].

(** A key that none of the clears of [manager_init] removes. *)
Definition survives_clears (H : Host) (k : string) : Prop :=
  key_type H k CLEAR_ON_MANAGER_START = false
  ∧ key_type H k CLEAR_ON_ONROAD_TRANSITION = false
  ∧ key_type H k CLEAR_ON_OFFROAD_TRANSITION = false
  ∧ (is_release_branch H = true → key_type H k DEVELOPMENT_ONLY = false).

(** The calls of [manager_init] between the passive check and the
    registration. *)
Definition version_events (H : Host) : list Event :=
  match mkdir_shm H with
  | Created => [Mkdir "/dev/shm"]
  | FileExists => []
  | PermissionDenied => [Print "WARNING: failed to make /dev/shm"]
  end
  ++ [ParamsPut "Version" (get_version H);
      ParamsPut "TermsVersion" (terms_version H);
      ParamsPut "TrainingVersion" (training_version H);
      ParamsPut "GitCommit" (get_commit H);
      ParamsPut "GitBranch" (get_short_branch H);
      ParamsPut "GitRemote" (get_origin H);
      ParamsPut "IsTestedBranch" (Store.bool_str (is_tested_branch H));
      ParamsPut "IsReleaseBranch" (Store.bool_str (is_release_branch H));
      Register].

(** The calls of the fallback error display. *)
Definition failure_shown (stop : list Event) : list Event :=
  [AddFileHandler; CloudlogException "Manager failed to start"]
  ++ stop ++ [TextWindow "Manager failed to start"].

(** [m] always returns, and in a world where [P] holds. *)
Definition establishes {A} (P : World → Prop) (m : M A) : Prop :=
  ∀ w, (∃ a, res (m w) = Ok a) ∧ P (final (m w)).

(** [m] always returns. *)
Definition returns {A} (m : M A) : Prop := ∀ w, ∃ a, res (m w) = Ok a.

(** The store after the clears that open [manager_init]. *)
Definition init_cleared (H : Host) (s : gmap string string) : gmap string string :=
  let s3 := Store.clear_all (key_type H) CLEAR_ON_OFFROAD_TRANSITION
              (Store.clear_all (key_type H) CLEAR_ON_ONROAD_TRANSITION
                 (Store.clear_all (key_type H) CLEAR_ON_MANAGER_START s)) in
  if is_release_branch H then Store.clear_all (key_type H) DEVELOPMENT_ONLY s3 else s3.

(** The calls of the power action selected by a store. *)
Definition power_events (s : gmap string string) : list Event :=
  if Store.get_bool s "DoUninstall" then [CloudlogWarning "uninstalling"; HwUninstall]
  else if Store.get_bool s "DoReboot" then [CloudlogWarning "reboot"; HwReboot]
  else if Store.get_bool s "DoShutdown" then [CloudlogWarning "shutdown"; HwShutdown]
  else [].

(** The calls of the two phases of the stop, for a process table. *)
Definition stop_requests (l : list ManagerProcess) : list Event :=
  map (λ p, ProcStop (name p) false) l.
Definition stop_waits (l : list ManagerProcess) : list Event :=
  map (λ p, ProcStop (name p) true) l.

(** ** Reasoning about computations *)

Lemma bind_run {A B} (m : M A) (f : A → M B) (w : World) :
  (m ≫= f) w =
  match res (m w) with
  | Ok a => prepend (events (m w)) (f a (final (m w)))
  | Raise e => mkOutcome (Raise e) (final (m w)) (events (m w))
  | Waiting => mkOutcome Waiting (final (m w)) (events (m w))
  end.
Proof. reflexivity. Qed.

Lemma prepend_nil {A} (o : Outcome A) : prepend [] o = o.
Proof. by destruct o. Qed.

Lemma prepend_prepend {A} (ev ev' : list Event) (o : Outcome A) :
  prepend ev (prepend ev' o) = prepend (ev ++ ev') o.
Proof. unfold prepend. simpl. by rewrite app_assoc. Qed.

Lemma ret_bind {A B} (a : A) (f : A → M B) (w : World) :
  (mret a ≫= f) w = f a w.
Proof. rewrite bind_run. simpl. apply prepend_nil. Qed.

Lemma get_world_bind {B} (f : World → M B) (w : World) :
  (get_world ≫= f) w = f w w.
Proof. rewrite bind_run. simpl. apply prepend_nil. Qed.

Lemma modify_bind {B} (g : World → World) (f : unit → M B) (w : World) :
  (modify g ≫= f) w = f tt (g w).
Proof. rewrite bind_run. simpl. apply prepend_nil. Qed.

Lemma emit_bind {B} (e : Event) (f : unit → M B) (w : World) :
  (emit e ≫= f) w = prepend [e] (f tt w).
Proof. reflexivity. Qed.

Lemma raise_bind {A B} (e : PyExc) (f : A → M B) (w : World) :
  (raise e ≫= f) w = mkOutcome (Raise e) w [].
Proof. reflexivity. Qed.

Lemma bind_bind {A B C} (m : M A) (f : A → M B) (g : B → M C) (w : World) :
  ((m ≫= f) ≫= g) w = (m ≫= λ a, f a ≫= g) w.
Proof.
  rewrite !bind_run. destruct (res (m w)) as [a| |]; simpl; try done.
  rewrite bind_run. destruct (res (f a (final (m w)))); simpl; try done.
  unfold prepend. simpl. by rewrite app_assoc.
Qed.

Lemma emit_run (e : Event) (w : World) : emit e w = mkOutcome (Ok tt) w [e].
Proof. reflexivity. Qed.

Lemma ret_run {A} (a : A) (w : World) : (mret a : M A) w = mkOutcome (Ok a) w [].
Proof. reflexivity. Qed.

Create Rewrite HintDb run.
#[global] Hint Rewrite @bind_bind @ret_bind @get_world_bind @modify_bind
  @emit_bind @raise_bind @prepend_prepend @prepend_nil : run.

Section EmitsOnly.

Context (P : Event → Prop).

Lemma emits_only_ret {A} (a : A) : emits_only P (mret a : M A).
Proof. intros w. constructor. Qed.

Lemma emits_only_raise {A} (e : PyExc) : emits_only P (raise e : M A).
Proof. intros w. constructor. Qed.

Lemma emits_only_waiting {A} : emits_only P (waiting : M A).
Proof. intros w. constructor. Qed.

Lemma emits_only_get_world : emits_only P get_world.
Proof. intros w. constructor. Qed.

Lemma emits_only_modify (f : World → World) : emits_only P (modify f).
Proof. intros w. constructor. Qed.

Lemma emits_only_emit (e : Event) : P e → emits_only P (emit e).
Proof. intros He w. repeat constructor. exact He. Qed.

Lemma emits_only_bind {A B} (m : M A) (f : A → M B) :
  emits_only P m → (∀ a, emits_only P (f a)) → emits_only P (m ≫= f).
Proof.
  intros Hm Hf w. rewrite bind_run.
  destruct (res (m w)); simpl; try apply Hm.
  apply Forall_app. split; [apply Hm | apply Hf].
Qed.

Lemma emits_only_try_except (body : M unit) (handler : PyExc → M unit) :
  emits_only P body → (∀ e, emits_only P (handler e)) →
  emits_only P (try_except body handler).
Proof.
  intros Hb Hh w. unfold try_except.
  destruct (res (body w)) as [a|e|]; try apply Hb.
  destruct (is_Exception e); [|apply Hb].
  simpl. apply Forall_app. split; [apply Hb | apply Hh].
Qed.

Lemma emits_only_try_finally {A} (body : M A) (fin : M unit) :
  emits_only P body → emits_only P fin → emits_only P (try_finally body fin).
Proof.
  intros Hb Hf w. unfold try_finally.
  destruct (res (body w)); simpl; try apply Hb;
    (apply Forall_app; split; [apply Hb | apply Hf]).
Qed.

Lemma emits_only_for_each {A} (l : list A) (body : A → M unit) :
  (∀ x, emits_only P (body x)) → emits_only P (for_each l body).
Proof.
  intros Hb. induction l as [|x l IH]; simpl.
  - apply emits_only_ret.
  - apply emits_only_bind; [apply Hb | intros _; exact IH].
Qed.

End EmitsOnly.

(** Decomposes an [emits_only] goal along the structure of the program;
    what is left are the conditions on the events emitted. *)
Ltac emits_step :=
  lazymatch goal with
  | |- emits_only _ (mbind _ _) => apply emits_only_bind; [| intros ?]
  | |- emits_only _ (mret _) => apply emits_only_ret
  | |- emits_only _ (raise _) => apply emits_only_raise
  | |- emits_only _ waiting => apply emits_only_waiting
  | |- emits_only _ get_world => apply emits_only_get_world
  | |- emits_only _ (modify _) => apply emits_only_modify
  | |- emits_only _ (emit _) => apply emits_only_emit
  | |- emits_only _ (try_except _ _) => apply emits_only_try_except; [| intros ?]
  | |- emits_only _ (try_finally _ _) => apply emits_only_try_finally
  | |- emits_only _ (for_each _ _) => apply emits_only_for_each; intros ?
  | |- emits_only _ (let _ := _ in _) => cbv zeta
  | |- emits_only _ (if ?b then _ else _) => destruct b
  | |- emits_only _ (match ?x with _ => _ end) => destruct x
  end.
Ltac emits := repeat emits_step.

(** Runs the primitive steps at the head of a computation applied to a
    world. *)
Ltac run := autorewrite with run; cbn [prepend res final events app].

(** ** The two-phase stop *)

Lemma for_each_proc_stop (block : bool) (n i : nat) (w : World) :
  (i + n)%nat = length (managed_processes w) →
  for_each (seq i n) (proc_stop block) w =
  mkOutcome (Ok tt)
    (with_procs (λ l, take i l ++ map (stop_state block) (drop i l)) w)
    (map (λ p, ProcStop (name p) block) (drop i (managed_processes w))).
Proof.
  revert i w. induction n as [|n IH]; intros i w Hlen.
  - unfold with_procs. simpl. rewrite drop_ge by lia. simpl. rewrite app_nil_r.
    rewrite take_ge by lia. destruct w; reflexivity.
  - simpl. destruct (lookup_lt_is_Some_2 (managed_processes w) i) as [p Hp]; [lia|].
    rewrite bind_run. unfold proc_stop at 1. rewrite bind_run. simpl. rewrite Hp.
    rewrite bind_run. simpl.
    rewrite IH by (simpl; rewrite length_alter; lia).
    simpl. unfold with_procs. simpl.
    rewrite drop_alter_lt by lia.
    rewrite take_alter_lt by lia.
    rewrite (take_S_r _ _ _ Hp).
    rewrite alter_app_r_alt by (rewrite length_take; lia).
    rewrite length_take, Nat.min_l by lia. rewrite Nat.sub_diag. simpl.
    rewrite (drop_S _ _ i Hp). simpl.
    rewrite <- app_assoc. reflexivity.
Qed.

Lemma for_values_proc_stop (block : bool) (w : World) :
  for_values (proc_stop block) w =
  mkOutcome (Ok tt) (with_procs (map (stop_state block)) w)
            (map (λ p, ProcStop (name p) block) (managed_processes w)).
Proof.
  unfold for_values. rewrite bind_run. simpl.
  rewrite for_each_proc_stop by reflexivity. reflexivity.
Qed.

Lemma stop_state_name (block : bool) (p : ManagerProcess) :
  name (stop_state block p) = name p.
Proof. destruct block; reflexivity. Qed.

Lemma manager_cleanup_run (w : World) :
  manager_cleanup w =
  mkOutcome (Ok tt)
    (with_procs (map (stop_state true)) (with_procs (map (stop_state false)) w))
    (stop_requests (managed_processes w) ++ stop_waits (managed_processes w)
     ++ [CloudlogInfo "everything is dead"]).
Proof.
  unfold manager_cleanup. rewrite bind_run, for_values_proc_stop. simpl.
  rewrite bind_run, for_values_proc_stop. unfold prepend. simpl.
  unfold stop_requests, stop_waits. do 3 f_equal.
  rewrite map_map. apply map_ext. intros p. by rewrite stop_state_name.
Qed.

(** C4. [manager_cleanup] returns; its calls are a non-blocking stop of
    every managed process in enumeration order, then a blocking stop of
    every managed process in the same order; afterwards the table holds
    the same workers and none of them is alive.  This holds for every
    process table, the empty one included. *)
Theorem manager_cleanup_two_phase (w : World) :
  let o := manager_cleanup w in
  res o = Ok tt
  ∧ events o = stop_requests (managed_processes w)
               ++ stop_waits (managed_processes w)
               ++ [CloudlogInfo "everything is dead"]
  ∧ map name (managed_processes (final o)) = map name (managed_processes w)
  ∧ Forall (λ p, is_alive p = false) (managed_processes (final o)).
Proof.
  rewrite manager_cleanup_run. simpl. repeat split.
  - rewrite !map_map. apply map_ext. intros p. reflexivity.
  - rewrite map_map. apply List.Forall_map, Forall_true.
    intros p. unfold is_alive. simpl. by destruct (proc p).
Qed.

(** ** Default seeding *)

Lemma set_unset_params_run (table : list (string * string)) (w : World) :
  set_unset_params table w =
  mkOutcome (Ok tt) (with_params (seed table) w) (seed_events table (params w)).
Proof.
  revert w. induction table as [|kv table IH]; intros w.
  - destruct w; reflexivity.
  - unfold set_unset_params in *. simpl. rewrite bind_run.
    unfold params_get at 1. rewrite bind_run. simpl. unfold Store.get.
    destruct (params w !! kv.1) eqn:Hk; simpl.
    + rewrite IH. unfold with_params. simpl. by rewrite Hk.
    + rewrite IH. unfold with_params, Store.put. simpl. by rewrite Hk.
Qed.

Lemma seed_lookup (table : list (string * string)) (s : gmap string string) (k : string) :
  seed table s !! k =
  match s !! k with Some v => Some v | None => first_binding k table end.
Proof.
  revert s. induction table as [|kv table IH]; intros s; simpl.
  - by destruct (s !! k).
  - destruct (s !! kv.1) eqn:Hkv; rewrite IH.
    + case_bool_decide as Hk; [|done]. subst k. by rewrite Hkv.
    + case_bool_decide as Hk.
      * subst k. by rewrite lookup_insert_eq, Hkv.
      * by rewrite lookup_insert_ne.
Qed.

Lemma seed_events_elem (table : list (string * string)) (s : gmap string string)
    (k v : string) :
  ParamsPut k v ∈ seed_events table s ↔
  s !! k = None ∧ first_binding k table = Some v.
Proof.
  revert s. induction table as [|kv table IH]; intros s; simpl.
  - split; [intros Hin; inversion Hin | intros [_ ?]; discriminate].
  - destruct (s !! kv.1) eqn:Hkv.
    + rewrite IH. case_bool_decide as Hk; [|done].
      subst k. rewrite Hkv. split; intros [? ?]; discriminate.
    + rewrite elem_of_cons, IH. case_bool_decide as Hk.
      * subst k. rewrite lookup_insert_eq, Hkv. split.
        -- intros [Heq | [? _]]; [|discriminate]. by inversion Heq.
        -- intros [_ Heq]. left. by inversion Heq.
      * rewrite lookup_insert_ne by done. split.
        -- intros [Heq | ?]; [|done]. inversion Heq. congruence.
        -- intros ?. by right.
Qed.

Lemma first_binding_elem (table : list (string * string)) (k v : string) :
  NoDup (map fst table) →
  first_binding k table = Some v ↔ (k, v) ∈ table.
Proof.
  induction table as [|kv table IH]; simpl; intros Hnd.
  - split; [discriminate | intros Hin; inversion Hin].
  - apply NoDup_cons in Hnd as [Hnotin Hnd]. rewrite elem_of_cons.
    case_bool_decide as Hk.
    + split.
      * intros Heq. left. destruct kv; simpl in *. congruence.
      * intros [Heq | Hin]; [by subst kv|].
        exfalso. apply Hnotin. subst k.
        apply list_elem_of_In, in_map_iff. exists (kv.1, v).
        split; [done | by apply list_elem_of_In].
    + rewrite IH by done. split; [by right|].
      intros [Heq | ?]; [|done]. subst kv. simpl in Hk. congruence.
Qed.

Lemma seed_all_set (table : list (string * string)) (s : gmap string string) :
  Forall (λ kv, is_Some (s !! kv.1)) table →
  seed table s = s ∧ seed_events table s = [].
Proof.
  induction 1 as [|kv table [v Hv] _ IH]; simpl; [done|]. by rewrite Hv.
Qed.

Lemma first_binding_is_Some (table : list (string * string)) (kv : string * string) :
  kv ∈ table → is_Some (first_binding kv.1 table).
Proof.
  induction table as [|kv' table IH]; simpl; intros Hin; [inversion Hin|].
  case_bool_decide; [by eexists|].
  apply elem_of_cons in Hin as [-> | Hin]; [done | by apply IH].
Qed.

Lemma seed_sets_table (table : list (string * string)) (s : gmap string string) :
  Forall (λ kv, is_Some (seed table s !! kv.1)) table.
Proof.
  apply Forall_forall. intros kv Hin. rewrite seed_lookup.
  destruct (s !! kv.1); [by eexists | by apply first_binding_is_Some].
Qed.

Lemma distinct_NoDup (l : list string) : distinct l = true → NoDup l.
Proof.
  induction l as [|x l IH]; simpl; intros Hd; [constructor|].
  apply andb_prop in Hd as [Hx Hl]. constructor; [|by apply IH].
  intros Hin. apply negb_true_iff in Hx.
  assert (existsb (String.eqb x) l = true) as Hex; [|congruence].
  apply existsb_exists. exists x.
  split; [by apply list_elem_of_In | apply String.eqb_refl].
Qed.

Lemma default_params_keys (H : Host) : NoDup (map fst (default_params H)).
Proof.
  unfold default_params. rewrite map_app.
  destruct (PC H); apply distinct_NoDup; vm_compute; reflexivity.
Qed.

Lemma seeding_pass (table : list (string * string)) (w : World) :
  NoDup (map fst table) →
  let o1 := set_unset_params table w in
  let o2 := set_unset_params table (final o1) in
  res o1 = Ok tt
  ∧ (∀ k v, ParamsPut k v ∈ events o1 ↔ (k, v) ∈ table ∧ params w !! k = None)
  ∧ (∀ k v, params w !! k = Some v → params (final o1) !! k = Some v)
  ∧ res o2 = Ok tt ∧ events o2 = [] ∧ final o2 = final o1.
Proof.
  intros Hnd. simpl. rewrite !set_unset_params_run. simpl.
  split; [done|]. split; [|split].
  - intros k v. rewrite seed_events_elem.
    rewrite (first_binding_elem _ _ _ Hnd). tauto.
  - intros k v Hk. by rewrite seed_lookup, Hk.
  - destruct (seed_all_set _ _ (seed_sets_table table (params w))) as [Hs He].
    split; [done|]. split; [done|].
    unfold with_params. simpl. by rewrite Hs.
Qed.

(** C5. The seeding pass of [manager_init] writes a pair of
    [default_params] exactly when its key is unset in the store, and
    leaves every stored value as it is; a second pass over the resulting
    store writes nothing and leaves the store unchanged. *)
Theorem set_unset_params_idempotent (H : Host) (w : World) :
  let o1 := set_unset_params (default_params H) w in
  let o2 := set_unset_params (default_params H) (final o1) in
  res o1 = Ok tt
  ∧ (∀ k v, ParamsPut k v ∈ events o1 ↔
            (k, v) ∈ default_params H ∧ params w !! k = None)
  ∧ (∀ k v, params w !! k = Some v → params (final o1) !! k = Some v)
  ∧ res o2 = Ok tt ∧ events o2 = [] ∧ final o2 = final o1.
Proof. apply seeding_pass, default_params_keys. Qed.

(** ** The ignore list *)

Lemma split_nonempty (sep : ascii) (s : string) : Py.split sep s ≠ [].
Proof.
  destruct s as [|c s]; simpl; [done|].
  destruct (Ascii.eqb c sep); [done|]. by destruct (Py.split sep s).
Qed.

(** Splitting cuts at the separators and nowhere else: joining gives the
    string back, and no piece holds a separator. *)
Lemma join_split (sep : ascii) (s : string) :
  Py.join (String sep EmptyString) (Py.split sep s) = s.
Proof.
  induction s as [|c s IH]; simpl; [done|].
  destruct (Ascii.eqb_spec c sep) as [->|Hne].
  - pose proof (split_nonempty sep s) as Hs.
    destruct (Py.split sep s) as [|x xs]; [done|].
    simpl in *. by rewrite IH.
  - pose proof (split_nonempty sep s) as Hs.
    destruct (Py.split sep s) as [|x xs]; [done|].
    destruct xs as [|y ys]; simpl in *; by rewrite <- IH.
Qed.

Lemma split_no_sep (sep : ascii) (s : string) :
  Forall (λ x, Py.mem_char sep x = false) (Py.split sep s).
Proof.
  induction s as [|c s IH]; simpl; [by repeat constructor|].
  destruct (Ascii.eqb_spec c sep) as [->|Hne]; [by constructor|].
  destruct IH as [|x xs Hx Hxs]; constructor; simpl; try done.
  - apply orb_false_iff. split; [by apply Ascii.eqb_neq | done].
  - apply orb_false_iff. split; [by apply Ascii.eqb_neq | done].
Qed.

Lemma length_pos_nonempty (x : string) : (0 < String.length x)%nat ↔ x ≠ "".
Proof. destruct x; simpl; split; (done || lia). Qed.

(** ** The loop *)

Section Loop.

Context (H : Host).

Lemma shutdown_flags_events (not_run flags : list string) (now : string) (sd : bool) :
  emits_only (loop_event not_run) (shutdown_flags flags now sd).
Proof.
  revert sd. induction flags as [|param rest IH]; intros sd; simpl.
  - apply emits_only_ret.
  - unfold params_get_bool, is_running_on_wsl2, params_put.
    emits; simpl; auto; apply IH.
Qed.

Lemma loop_body_events (not_run : list string) (t : Tick) (pt : Z) (sp : bool) :
  emits_only (loop_event not_run) (loop_body H not_run t pt sp).
Proof.
  unfold loop_body, sm_update, params_clear_all, write_onroad_params,
    ensure_running, pm_send.
  emits; try apply shutdown_flags_events; simpl; auto.
Qed.

Lemma manager_loop_events (not_run : list string) (ticks : list Tick) (pt : Z) (sp : bool) :
  emits_only (loop_event not_run) (manager_loop H not_run ticks pt sp).
Proof.
  revert pt sp. induction ticks as [|t ticks IH]; intros pt sp; simpl.
  - apply emits_only_waiting.
  - apply emits_only_bind; [apply loop_body_events|].
    intros r. destruct (r.1.1); [apply emits_only_ret | apply IH].
Qed.

Lemma sm_update_run (t : Tick) (w : World) :
  sm_update t w =
  mkOutcome (match t_fault t with
             | Some (AtUpdate, e) => Raise e
             | _ => Ok tt
             end)
    (with_params (λ s, foldl (λ s kv, Store.put kv.1 kv.2 s) s (t_ext t)) w)
    [SmUpdate].
Proof.
  unfold sm_update. rewrite !bind_run. simpl.
  destruct (t_fault t) as [[[] e]|]; reflexivity.
Qed.

Lemma loop_body_head (not_run : list string) (t : Tick) (pt : Z) (sp : bool) (w : World) :
  ∃ l, events (loop_body H not_run t pt sp w) = SmUpdate :: l.
Proof.
  unfold loop_body. rewrite bind_run, sm_update_run. simpl.
  destruct (t_fault t) as [[[] e]|]; simpl; eauto.
Qed.

Lemma manager_loop_head (not_run : list string) (ticks : list Tick) (pt : Z) (sp : bool)
    (w : World) :
  events (manager_loop H not_run ticks pt sp w) = []
  ∨ ∃ l, events (manager_loop H not_run ticks pt sp w) = SmUpdate :: l.
Proof.
  destruct ticks as [|t ticks]; simpl; [by left | right].
  rewrite bind_run.
  destruct (loop_body_head not_run t pt sp w) as [l Hl].
  destruct (res (loop_body H not_run t pt sp w)); simpl; rewrite Hl; simpl; eauto.
Qed.

(** [manager_thread] is its five opening calls followed by the loop, run
    with the list [ignore] of the world at entry. *)
Lemma manager_thread_run (ticks : list Tick) (w : World) :
  let w1 := with_procs (ensure_running_fx H false (ignore H w)
                          (write_onroad_params_fx H false (params w)))
              (with_params (write_onroad_params_fx H false) w) in
  let o := manager_loop H (ignore H w) ticks 0 false w1 in
  manager_thread H ticks w =
  mkOutcome (res o) (final o)
    ([CloudlogBind; CloudlogInfo "manager start"; CloudlogEnviron;
      WriteOnroadParams false; EnsureRunning false (ignore H w)] ++ events o).
Proof.
  cbv zeta. unfold manager_thread, write_onroad_params, ensure_running.
  run. reflexivity.
Qed.

Lemma manager_thread_events (ticks : list Tick) (w : World) :
  Forall (thread_event (ignore H w)) (events (manager_thread H ticks w)).
Proof.
  rewrite manager_thread_run. simpl.
  repeat (constructor; [unfold thread_event; simpl; auto |]).
  eapply Forall_impl; [apply manager_loop_events|].
  intros e He. by left.
Qed.

End Loop.

(** C7. The list [ignore] that [manager_thread] builds holds exactly:
    [manage_athenad] and [uploader] when [DongleId] is unset or is
    [UNREGISTERED_DONGLE_ID]; [pandad] when [NOBOARD] is in the
    environment; and every non-empty piece of [BLOCK] cut at its commas.
    With [BLOCK] set to uploader,logcatd the list holds [uploader] and
    [logcatd].  The list is built once: every call of [ensure_running]
    the thread makes is given this same list. *)
Theorem ignore_is_union (H : Host) (w : World) :
  let block := default "" (environ w !! "BLOCK") in
  (∀ x, x ∈ ignore H w ↔
     ((params w !! "DongleId" = None
       ∨ params w !! "DongleId" = Some (UNREGISTERED_DONGLE_ID H))
      ∧ (x = "manage_athenad" ∨ x = "uploader"))
     ∨ (is_Some (environ w !! "NOBOARD") ∧ x = "pandad")
     ∨ (x ≠ "" ∧ x ∈ Py.split "," block))
  ∧ Py.join "," (Py.split "," block) = block
  ∧ (let w' := with_environ (insert "BLOCK" "uploader,logcatd") w in
     "uploader" ∈ ignore H w' ∧ "logcatd" ∈ ignore H w')
  ∧ (∀ ticks started not_run,
       EnsureRunning started not_run ∈ events (manager_thread H ticks w) →
       not_run = ignore H w).
Proof.
  simpl. split; [|split; [|split]].
  - intros x. unfold ignore. rewrite !elem_of_app, list_elem_of_filter.
    rewrite length_pos_nonempty.
    repeat case_bool_decide; rewrite ?elem_of_cons, ?elem_of_nil;
      tauto.
  - apply join_split.
  - unfold ignore. simpl. rewrite lookup_insert_eq. simpl.
    rewrite !elem_of_app. split; right; right.
    + apply list_elem_of_In. vm_compute. auto.
    + apply list_elem_of_In. vm_compute. auto.
  - intros ticks started not_run Hin.
    pose proof (manager_thread_events H ticks w) as Hall.
    rewrite Forall_forall in Hall. specialize (Hall _ Hin).
    destruct Hall as [Hl | [? | [? | ?]]]; try discriminate.
    exact Hl.
Qed.

(** C10. Whatever samples follow, the calls [manager_thread] makes before
    its first [sm.update()] are the three log calls, then
    [write_onroad_params(False, params)], then one [ensure_running] with
    [started] false and the list [ignore]. *)
Theorem off_road_before_first_sample (H : Host) (ticks : list Tick) (w : World) :
  before_first_update (events (manager_thread H ticks w)) =
  [CloudlogBind; CloudlogInfo "manager start"; CloudlogEnviron;
   WriteOnroadParams false; EnsureRunning false (ignore H w)].
Proof.
  rewrite manager_thread_run. simpl.
  match goal with |- context [manager_loop H ?nr ticks ?pt ?sp ?w1] =>
    destruct (manager_loop_head H nr ticks pt sp w1) as [-> | [l ->]]
  end; reflexivity.
Qed.

(** ** Transitions *)

Section Transitions.

Context (H : Host).

Lemma clears_inert (l rest : list Event) :
  Forall inert l → clears (l ++ rest) = clears rest.
Proof.
  induction 1 as [|e l He _ IH]; simpl; [done|].
  destruct e; simpl in He; try done; exact IH.
Qed.

Lemma shutdown_flags_inert (flags : list string) (now : string) (sd : bool) :
  emits_only inert (shutdown_flags flags now sd).
Proof.
  revert sd. induction flags as [|param rest IH]; intros sd; simpl.
  - apply emits_only_ret.
  - unfold params_get_bool, is_running_on_wsl2, params_put.
    emits; simpl; auto; apply IH.
Qed.

Lemma shutdown_flags_cons (param : string) (rest : list string) (now : string)
    (sd : bool) (w : World) :
  shutdown_flags (param :: rest) now sd w =
  if Store.get_bool (params w) param && negb (on_wsl2 w) then
    prepend
      [ParamsPut "LastManagerExitReason" (param +:+ " " +:+ now);
       CloudlogWarning ("Shutting down manager - " +:+ param +:+ " set")]
      (shutdown_flags rest now true
         (with_params (Store.put "LastManagerExitReason" (param +:+ " " +:+ now)) w))
  else shutdown_flags rest now sd w.
Proof.
  cbn [shutdown_flags].
  unfold params_get_bool, is_running_on_wsl2, params_put, on_wsl2. run.
  destruct (Store.get_bool (params w) param); cbn [andb]; run; [|done].
  destruct (files w !! "/proc/version") as [c|]; run; [|done].
  destruct (Py.contains "WSL2" c || Py.contains "Ubuntu" c); cbn [negb]; run; done.
Qed.

Lemma shutdown_flags_returns (flags : list string) (now : string) (sd : bool) (w : World) :
  ∃ b, res (shutdown_flags flags now sd w) = Ok b.
Proof.
  revert sd w. induction flags as [|param rest IH]; intros sd w.
  - by eexists.
  - rewrite shutdown_flags_cons.
    destruct (Store.get_bool (params w) param && negb (on_wsl2 w)); simpl; apply IH.
Qed.

(** An iteration without a fault returns, with [started] the sample (or
    the previous value on a timeout), and clears what the edge asks. *)
Lemma loop_body_clears (not_run : list string) (t : Tick) (pt : Z) (sp : bool) (w : World) :
  t_fault t = None →
  let started := default sp (t_sample t) in
  let o := loop_body H not_run t pt sp w in
  (∃ sd, res o = Ok (sd, (pt + 1) mod 10, started))
  ∧ ∀ rest, clears (events o ++ rest) =
            ([], (edge_clears sp started ++ (clears rest).1) :: (clears rest).2).
Proof.
  intros Hf. cbv zeta. unfold loop_body.
  set (flags := "DoUninstall" :: _).
  rewrite bind_run, sm_update_run, Hf. cbn [res final events].
  unfold params_clear_all, write_onroad_params, ensure_running, pm_send, fault_at.
  rewrite Hf. run.
  destruct sp, (default _ (t_sample t)); cbn [andb negb eqb res final events app];
    destruct ((pt + 1) `mod` 10 =? 0); run.
  all: match goal with |- context [(shutdown_flags ?fl ?now false ≫= _) ?w1] =>
         destruct (shutdown_flags_returns fl now false w1) as [b Hb];
         pose proof (shutdown_flags_inert fl now false w1) as Hin
       end.
  all: rewrite bind_run, Hb; cbn [prepend res final events app].
  all: (split; [by eexists|]); intros rest.
  all: rewrite app_nil_r; cbn [clears edge_clears fst snd app].
  all: by rewrite clears_inert.
Qed.

Lemma manager_loop_clears (not_run : list string) (ticks : list Tick) :
  Forall (λ t, t_fault t = None) ticks →
  ∀ pt sp w,
    let o := manager_loop H not_run ticks pt sp w in
    (clears (events o)).1 = []
    ∧ (res o = Waiting → (clears (events o)).2 = transitions sp ticks).
Proof.
  induction 1 as [|t ticks Hf _ IH]; intros pt sp w; [done|].
  cbn [manager_loop transitions]. cbv zeta. rewrite bind_run.
  destruct (loop_body_clears not_run t pt sp w Hf) as [[sd Hres] Hcl].
  rewrite Hres. cbn [fst snd prepend res events]. rewrite Hcl.
  destruct sd.
  - split; [done | discriminate].
  - specialize (IH ((pt + 1) `mod` 10) (default sp (t_sample t))
                   (final (loop_body H not_run t pt sp w))).
    destruct IH as [IH1 IH2]. split; [done|].
    intros Hw. cbn [fst snd]. by rewrite IH1, IH2, app_nil_r.
Qed.

End Transitions.

(** C3. When the samples are off-road, off-road, on-road, on-road,
    off-road, no iteration fails and the loop is still running after the
    fifth, [manager_thread] clears [CLEAR_ON_ONROAD_TRANSITION] in the
    iteration of index 2 and nowhere else, [CLEAR_ON_OFFROAD_TRANSITION] in
    the iteration of index 4 and nowhere else, and nothing in the
    iterations whose sample equals the previous one. *)
Theorem transition_scenario (H : Host) (w : World) (ticks : list Tick) :
  map t_sample ticks = [Some false; Some false; Some true; Some true; Some false] →
  Forall (λ t, t_fault t = None) ticks →
  res (manager_thread H ticks w) = Waiting →
  clears_per_tick (events (manager_thread H ticks w)) =
  [[]; []; [CLEAR_ON_ONROAD_TRANSITION]; []; [CLEAR_ON_OFFROAD_TRANSITION]].
Proof.
  intros Hs Hf. rewrite manager_thread_run. cbn [res events]. intros Hw.
  unfold clears_per_tick. cbn [app clears].
  match type of Hw with res (manager_loop _ ?nr _ _ _ ?w1) = _ =>
    destruct (manager_loop_clears H nr _ Hf 0 false w1) as [_ Hcl]
  end.
  rewrite (Hcl Hw).
  destruct ticks as [|t0 [|t1 [|t2 [|t3 [|t4 [|]]]]]]; try discriminate.
  injection Hs as H0 H1 H2 H3 H4.
  cbn [transitions]. by rewrite H0, H1, H2, H3, H4.
Qed.

Lemma transition_scenario_witness :
  clears_per_tick (events (manager_thread Scenario.host Scenario.road_trip Scenario.world)) =
  [[]; []; [CLEAR_ON_ONROAD_TRANSITION]; []; [CLEAR_ON_OFFROAD_TRANSITION]].
Proof.
  apply transition_scenario.
  - reflexivity.
  - repeat constructor.
  - vm_compute. reflexivity.
Defined.

(** ** After the loop *)

Section AfterLoop.

Context (H : Host).

Lemma power_action_run (w : World) :
  power_action w = mkOutcome (Ok tt) w (power_events (params w)).
Proof.
  unfold power_action, power_events, params_get_bool. run.
  destruct (Store.get_bool (params w) "DoUninstall"); run; [done|].
  destruct (Store.get_bool (params w) "DoReboot"); run; [done|].
  destruct (Store.get_bool (params w) "DoShutdown"); run; done.
Qed.

(** [main_run] when the loop lets an exception escape. *)
Lemma main_run_raise (ticks : list Tick) (w : World) (e : PyExc) :
  res (manager_thread H ticks w) = Raise e →
  let ot := manager_thread H ticks w in
  let wc := with_procs (map (stop_state true))
              (with_procs (map (stop_state false)) (final ot)) in
  let stops := stop_requests (managed_processes (final ot))
               ++ stop_waits (managed_processes (final ot))
               ++ [everything_is_dead] in
  main_run H ticks w =
  if is_Exception e then
    mkOutcome (Ok tt) wc
      ([SignalSigterm] ++ events ot ++ [PrintExc; SentryCapture] ++ stops
       ++ power_events (params (final ot)))
  else
    mkOutcome (Raise e) wc ([SignalSigterm] ++ events ot ++ stops).
Proof.
  cbv zeta. destruct (manager_thread H ticks w) as [r wt evt] eqn:Hot.
  cbn [res final events]. intros ->.
  unfold main_run. rewrite emit_bind, bind_run.
  unfold try_finally, try_except. rewrite Hot. cbn [res final events].
  change ((emit PrintExc ≫= λ _, emit SentryCapture) wt)
    with (mkOutcome (Ok tt) wt [PrintExc; SentryCapture]).
  destruct (is_Exception e);
    cbn [prepend res final events];
    rewrite manager_cleanup_run; cbn [prepend res final events].
  - rewrite power_action_run. unfold everything_is_dead.
    cbn [res final events with_procs params].
    unfold prepend. cbn [res final events app].
    f_equal. f_equal. by rewrite <- !app_assoc.
  - reflexivity.
Qed.


End AfterLoop.

(** ** Failure paths *)

Lemma Forall_not_elem (P : Event → Prop) (l : list Event) (x : Event) :
  Forall P l → ¬ P x → x ∉ l.
Proof. rewrite Forall_forall. intros Hall Hx Hin. by apply Hx, Hall. Qed.

Lemma count_occ_absent (l : list Event) (x : Event) :
  x ∉ l → count_occ Event_eq_dec l x = 0%nat.
Proof. intros Hx. apply count_occ_not_In. by rewrite <- list_elem_of_In. Qed.

Lemma stop_requests_stops (l : list ManagerProcess) : Forall is_stop (stop_requests l).
Proof. unfold stop_requests. apply List.Forall_map, Forall_true. by intros p. Qed.

Lemma stop_waits_stops (l : list ManagerProcess) : Forall is_stop (stop_waits l).
Proof. unfold stop_waits. apply List.Forall_map, Forall_true. by intros p. Qed.

Lemma power_events_power (s : gmap string string) : Forall is_power (power_events s).
Proof.
  unfold power_events.
  repeat (destruct (Store.get_bool s _)); by repeat constructor.
Qed.

(** C2, as stated, fails: when the exit request of the SIGTERM handler
    escapes the loop, nothing is reported to sentry. *)
Lemma sigterm_not_reported :
  res (manager_thread Scenario.host [Scenario.steady false; Scenario.sigterm_tick] Scenario.world)
    = Raise (SystemExit 1)
  ∧ SentryCapture ∉
      events (main_run Scenario.host [Scenario.steady false; Scenario.sigterm_tick] Scenario.world).
Proof.
  split; [vm_compute; reflexivity|].
  apply (bool_decide_unpack _). vm_compute. exact I.
Qed.

(** C2, amended. Whatever escapes the loop, [main_run] then runs
    [manager_cleanup] exactly once, after which no managed process is
    alive; an exception that is an [Exception] is reported to sentry
    before the cleanup, and the run goes on to the power action; any other
    (the [SystemExit] of the SIGTERM handler) is not reported and is
    raised again after the cleanup. *)
Theorem escaping_error_teardown (H : Host) (ticks : list Tick) (w : World) (e : PyExc) :
  res (manager_thread H ticks w) = Raise e →
  let ot := manager_thread H ticks w in
  let o := main_run H ticks w in
  events o =
    [SignalSigterm] ++ events ot
    ++ (if is_Exception e then [PrintExc; SentryCapture] else [])
    ++ stop_requests (managed_processes (final ot))
    ++ stop_waits (managed_processes (final ot))
    ++ [everything_is_dead]
    ++ (if is_Exception e then power_events (params (final ot)) else [])
  ∧ res o = (if is_Exception e then Ok tt else Raise e)
  ∧ (SentryCapture ∈ events o ↔ is_Exception e = true)
  ∧ count_occ Event_eq_dec (events o) everything_is_dead = 1%nat
  ∧ Forall (λ p, is_alive p = false) (managed_processes (final o)).
Proof.
  intros Hres. cbv zeta.
  pose proof (manager_thread_events H ticks w) as Hthread.
  pose proof (stop_requests_stops (managed_processes (final (manager_thread H ticks w)))) as Hreq.
  pose proof (stop_waits_stops (managed_processes (final (manager_thread H ticks w)))) as Hwait.
  pose proof (power_events_power (params (final (manager_thread H ticks w)))) as Hpow.
  assert (∀ x, (x = SentryCapture ∨ x = everything_is_dead) →
               x ∉ events (manager_thread H ticks w)) as Ht.
  { intros x Hx. eapply Forall_not_elem; [exact Hthread|].
    unfold thread_event, everything_is_dead in *.
    destruct Hx as [-> | ->]; simpl; intros [? | [? | [? | ?]]]; done. }
  assert (∀ x, (x = SentryCapture ∨ x = everything_is_dead) →
               (x ∉ stop_requests (managed_processes (final (manager_thread H ticks w))))
               ∧ (x ∉ stop_waits (managed_processes (final (manager_thread H ticks w))))
               ∧ (x ∉ power_events (params (final (manager_thread H ticks w))))) as Hs.
  { intros x Hx. unfold everything_is_dead in *. repeat split.
    - eapply Forall_not_elem; [exact Hreq|]. destruct Hx as [-> | ->]; intros [].
    - eapply Forall_not_elem; [exact Hwait|]. destruct Hx as [-> | ->]; intros [].
    - eapply Forall_not_elem; [exact Hpow|]. destruct Hx as [-> | ->]; intros []. }
  rewrite (main_run_raise H ticks w e Hres). cbv zeta.
  pose proof (Ht SentryCapture (or_introl eq_refl)).
  pose proof (Ht everything_is_dead (or_intror eq_refl)).
  destruct (Hs SentryCapture) as (? & ? & ?); [by left|].
  destruct (Hs everything_is_dead) as (? & ? & ?); [by right|].
  destruct (is_Exception e); cbn [res final events with_procs managed_processes].
  - split; [by rewrite <- !app_assoc|]. split; [reflexivity|]. split; [|split].
    + split; [done|]. intros _.
      do 2 (apply elem_of_app; right). apply elem_of_app; left.
      apply elem_of_cons; right. apply elem_of_cons; by left.
    + rewrite !count_occ_app.
      rewrite (count_occ_absent (events _)), (count_occ_absent (stop_requests _)),
        (count_occ_absent (stop_waits _)) by done.
      rewrite ?(count_occ_absent (power_events _)) by done.
      reflexivity.
    + rewrite map_map. apply List.Forall_map, Forall_true.
      intros p. unfold is_alive. simpl. by destruct (proc p).
  - split; [by rewrite ?app_nil_r, <- ?app_assoc|]. split; [reflexivity|]. split; [|split].
    + split; [|done]. intros Hin. exfalso.
      rewrite !elem_of_app, !elem_of_cons, elem_of_nil in Hin.
      unfold everything_is_dead in Hin. intuition discriminate.
    + rewrite !count_occ_app.
      rewrite (count_occ_absent (events _)), (count_occ_absent (stop_requests _)),
        (count_occ_absent (stop_waits _)) by done.
      rewrite ?(count_occ_absent (power_events _)) by done.
      reflexivity.
    + rewrite map_map. apply List.Forall_map, Forall_true.
      intros p. unfold is_alive. simpl. by destruct (proc p).
Qed.

Lemma escaping_error_teardown_witness :
  count_occ Event_eq_dec
    (events (main_run Scenario.host [Scenario.steady false; Scenario.sigterm_tick] Scenario.world))
    everything_is_dead = 1%nat.
Proof.
  apply (escaping_error_teardown Scenario.host [Scenario.steady false; Scenario.sigterm_tick]
           Scenario.world (SystemExit 1)).
  vm_compute. reflexivity.
Defined.

Section NoReason.

Context (H : Host).

Lemma puts_only_if_fires_bind {A} (m : M A) (f : A → M (bool * Z * bool)) :
  emits_only no_put m → (∀ a, puts_only_if_fires (f a)) →
  puts_only_if_fires (m ≫= f).
Proof.
  intros Hm Hf w. rewrite bind_run.
  destruct (res (m w)) as [a|e|]; cbn [prepend res events]; try (left; apply Hm).
  destruct (Hf a (final (m w))) as [Hq | Hfire]; [left | by right].
  apply Forall_app. split; [apply Hm | exact Hq].
Qed.

(** The flag loop returns; it returns [True] when it was entered with
    [shutdown] set; and when it returns [False] it has called nothing. *)
Lemma shutdown_flags_quiet (flags : list string) (now : string) (sd : bool) (w : World) :
  ∃ b, res (shutdown_flags flags now sd w) = Ok b
       ∧ (sd = true → b = true)
       ∧ (b = false → events (shutdown_flags flags now sd w) = []).
Proof.
  revert sd w. induction flags as [|param rest IH]; intros sd w.
  - exists sd. by repeat split.
  - rewrite shutdown_flags_cons.
    destruct (Store.get_bool (params w) param && negb (on_wsl2 w)); [|apply IH].
    match goal with |- context [shutdown_flags rest now true ?w1] =>
      destruct (IH true w1) as (b & Hb & Htrue & _) end.
    exists b. cbn [prepend res events]. split; [done|]. split; [by intros _; apply Htrue|].
    intros ->. by specialize (Htrue eq_refl).
Qed.

Lemma loop_body_quiet (not_run : list string) (t : Tick) (pt : Z) (sp : bool) :
  puts_only_if_fires (loop_body H not_run t pt sp).
Proof.
  unfold loop_body.
  repeat (apply puts_only_if_fires_bind;
          [unfold sm_update, params_clear_all, write_onroad_params,
             ensure_running, pm_send; emits; exact I
          | intros ?; cbv zeta]).
  intros w. rewrite bind_run.
  destruct (shutdown_flags_quiet ["DoUninstall"; "DoShutdown"; "DoReboot"] (t_now t) false w)
    as (b & Hb & _ & Hq).
  rewrite Hb. cbn [prepend res events mret M_ret]. destruct b.
  - right. by eexists _, _.
  - left. rewrite (Hq eq_refl). constructor.
Qed.

Lemma manager_loop_quiet (not_run : list string) (ticks : list Tick) (pt : Z) (sp : bool)
    (w : World) :
  res (manager_loop H not_run ticks pt sp w) ≠ Ok tt →
  Forall no_put (events (manager_loop H not_run ticks pt sp w)).
Proof.
  revert pt sp w. induction ticks as [|t ticks IH]; intros pt sp w; [by constructor|].
  cbn [manager_loop]. rewrite bind_run.
  destruct (loop_body_quiet not_run t pt sp w) as [Hq | (pt' & st & Hfire)].
  - destruct (res (loop_body H not_run t pt sp w)) as [[[sd pt'] st]| |];
      cbn [prepend res events fst snd]; try done.
    destruct sd; [done|]. intros Hres.
    apply Forall_app. split; [exact Hq | by apply IH].
  - rewrite Hfire. cbn [prepend res events fst snd]. done.
Qed.

Lemma manager_thread_quiet (ticks : list Tick) (w : World) :
  res (manager_thread H ticks w) ≠ Ok tt →
  Forall no_put (events (manager_thread H ticks w)).
Proof.
  rewrite manager_thread_run. cbn [res events]. intros Hres.
  repeat (constructor; [exact I|]). by apply manager_loop_quiet.
Qed.

End NoReason.

Lemma power_events_hw (s : gmap string string) :
  (HwUninstall ∈ power_events s ↔ Store.get_bool s "DoUninstall" = true)
  ∧ (HwReboot ∈ power_events s ↔
       Store.get_bool s "DoUninstall" = false ∧ Store.get_bool s "DoReboot" = true)
  ∧ (HwShutdown ∈ power_events s ↔
       Store.get_bool s "DoUninstall" = false ∧ Store.get_bool s "DoReboot" = false
       ∧ Store.get_bool s "DoShutdown" = true).
Proof.
  unfold power_events.
  destruct (Store.get_bool s "DoUninstall"), (Store.get_bool s "DoReboot"),
    (Store.get_bool s "DoShutdown");
    rewrite ?elem_of_cons, ?elem_of_nil; intuition discriminate.
Qed.

(** C9. When an [Exception] escapes the loop, [main_run] still returns
    and ends with the power action that the store holds at that moment:
    uninstall when [DoUninstall] reads true, else reboot when [DoReboot]
    does, else shutdown when [DoShutdown] does.  The choice reads the
    store only, not [/proc/version], and in such a run nothing was written
    to the store, so no [LastManagerExitReason] was recorded. *)
Theorem power_action_after_exception (H : Host) (ticks : list Tick) (w : World) (e : PyExc) :
  res (manager_thread H ticks w) = Raise e →
  is_Exception e = true →
  let s := params (final (manager_thread H ticks w)) in
  let o := main_run H ticks w in
  res o = Ok tt
  ∧ params (final o) = s
  ∧ (∃ pre, events o = pre ++ power_events s ∧ Forall (λ x, ¬ is_hw x) pre)
  ∧ Forall no_put (events o)
  ∧ (HwUninstall ∈ events o ↔ Store.get_bool s "DoUninstall" = true)
  ∧ (HwReboot ∈ events o ↔
       Store.get_bool s "DoUninstall" = false ∧ Store.get_bool s "DoReboot" = true)
  ∧ (HwShutdown ∈ events o ↔
       Store.get_bool s "DoUninstall" = false ∧ Store.get_bool s "DoReboot" = false
       ∧ Store.get_bool s "DoShutdown" = true).
Proof.
  intros Hres Hexc. cbv zeta.
  pose proof (manager_thread_events H ticks w) as Hthread.
  assert (Forall no_put (events (manager_thread H ticks w))) as Hquiet.
  { apply manager_thread_quiet. by rewrite Hres. }
  rewrite (main_run_raise H ticks w e Hres). cbv zeta. rewrite Hexc.
  cbn [res final events with_procs params].
  remember (manager_thread H ticks w) as ot eqn:Hot. clear Hot.
  pose proof (stop_requests_stops (managed_processes (final ot))) as Hreq.
  pose proof (stop_waits_stops (managed_processes (final ot))) as Hwait.
  pose proof (power_events_power (params (final ot))) as Hpow.
  pose proof (power_events_hw (params (final ot))) as (HU & HR & HS).
  remember (stop_requests (managed_processes (final ot))) as req eqn:Hr. clear Hr.
  remember (stop_waits (managed_processes (final ot))) as waits eqn:Hw. clear Hw.
  assert (Forall (λ x, ¬ is_hw x)
            ([SignalSigterm] ++ events ot ++ [PrintExc; SentryCapture]
             ++ req ++ waits ++ [everything_is_dead])) as Hpre.
  { apply Forall_app. split; [repeat constructor; by intros []|].
    apply Forall_app. split.
    { eapply Forall_impl; [exact Hthread|].
      intros x [Hx | [-> | [-> | ->]]]; try (by intros []).
      destruct x; try (by intros []); destruct Hx. }
    apply Forall_app. split; [repeat constructor; by intros []|].
    apply Forall_app. split.
    { eapply Forall_impl; [exact Hreq|]. intros x Hx.
      destruct x; try (by intros []); destruct Hx. }
    apply Forall_app. split.
    { eapply Forall_impl; [exact Hwait|]. intros x Hx.
      destruct x; try (by intros []); destruct Hx. }
    repeat constructor. by intros []. }
  assert (∀ x, is_hw x →
            (x ∈ [SignalSigterm] ++ events ot ++ [PrintExc; SentryCapture]
                 ++ (req ++ waits ++ [everything_is_dead])
                 ++ power_events (params (final ot)))
            ↔ x ∈ power_events (params (final ot))) as Hhw.
  { intros x Hx.
    replace ([SignalSigterm] ++ events ot ++ [PrintExc; SentryCapture]
             ++ (req ++ waits ++ [everything_is_dead])
             ++ power_events (params (final ot)))
      with (([SignalSigterm] ++ events ot ++ [PrintExc; SentryCapture]
             ++ req ++ waits ++ [everything_is_dead])
            ++ power_events (params (final ot)))
      by (by rewrite <- !app_assoc).
    rewrite elem_of_app. split; [|by right].
    intros [Hin | Hin]; [|done].
    rewrite Forall_forall in Hpre. by destruct (Hpre x Hin). }
  split; [done|]. split; [done|]. split; [|split].
  - eexists. split; [|exact Hpre]. by rewrite <- !app_assoc.
  - apply Forall_app. split; [by repeat constructor|].
    apply Forall_app. split; [exact Hquiet|].
    apply Forall_app. split; [by repeat constructor|].
    apply Forall_app. split.
    { apply Forall_app. split.
      - eapply Forall_impl; [exact Hreq|]. intros x Hx.
        destruct x; try exact I; destruct Hx.
      - apply Forall_app. split; [|by repeat constructor].
        eapply Forall_impl; [exact Hwait|]. intros x Hx.
        destruct x; try exact I; destruct Hx. }
    eapply Forall_impl; [exact Hpow|]. intros x Hx.
    destruct x; try exact I; destruct Hx.
  - rewrite !Hhw by exact I. exact (conj HU (conj HR HS)).
Qed.

Lemma power_action_after_exception_witness :
  HwShutdown ∈
    events (main_run Scenario.host [Scenario.steady false; Scenario.failing_tick]
              Scenario.wsl_world).
Proof.
  apply (power_action_after_exception Scenario.host
           [Scenario.steady false; Scenario.failing_tick] Scenario.wsl_world
           (Exception "boom")).
  - vm_compute. reflexivity.
  - reflexivity.
  - vm_compute. auto.
Defined.

(** ** The exit reason *)

Lemma get_bool_put_ne (s : gmap string string) (k k' v : string) :
  k ≠ k' → Store.get_bool (Store.put k v s) k' = Store.get_bool s k'.
Proof. intros Hne. unfold Store.get_bool, Store.put. by rewrite lookup_insert_ne. Qed.

(** Outside WSL2 the flag loop returns [True] exactly when one of the
    three flags reads true, and the reason it leaves in the store names
    the last flag of DoUninstall, DoShutdown, DoReboot that reads true. *)
Lemma shutdown_flags_reason (now : string) (w : World) :
  on_wsl2 w = false →
  let s := params w in
  let o := shutdown_flags ["DoUninstall"; "DoShutdown"; "DoReboot"] now false w in
  res o = Ok (Store.get_bool s "DoUninstall" || Store.get_bool s "DoShutdown"
              || Store.get_bool s "DoReboot")
  ∧ params (final o) !! "LastManagerExitReason" =
      if Store.get_bool s "DoReboot" then Some ("DoReboot " +:+ now)
      else if Store.get_bool s "DoShutdown" then Some ("DoShutdown " +:+ now)
      else if Store.get_bool s "DoUninstall" then Some ("DoUninstall " +:+ now)
      else s !! "LastManagerExitReason".
Proof.
  intros Hwsl. cbv zeta.
  assert (∀ v w', on_wsl2 (with_params (Store.put "LastManagerExitReason" v) w')
                  = on_wsl2 w') as Hsame by done.
  assert (∀ v w' k, k ≠ "LastManagerExitReason" →
            Store.get_bool (params (with_params (Store.put "LastManagerExitReason" v) w')) k
            = Store.get_bool (params w') k) as Hget.
  { intros v w' k Hk. unfold with_params. cbn [params]. by apply get_bool_put_ne. }
  assert (∀ v w', params (with_params (Store.put "LastManagerExitReason" v) w')
                    !! "LastManagerExitReason" = Some v) as Hput.
  { intros v w'. unfold with_params, Store.put. cbn [params]. apply lookup_insert_eq. }
  rewrite !shutdown_flags_cons.
  rewrite ?Hsame, ?Hget, Hwsl by done. cbn [negb]. rewrite !andb_true_r.
  destruct (Store.get_bool (params w) "DoUninstall");
    rewrite ?shutdown_flags_cons, ?Hsame, ?Hget, ?Hwsl by done;
    cbn [negb]; rewrite ?andb_true_r;
    destruct (Store.get_bool (params w) "DoShutdown");
    rewrite ?shutdown_flags_cons, ?Hsame, ?Hget, ?Hwsl by done;
    cbn [negb]; rewrite ?andb_true_r;
    destruct (Store.get_bool (params w) "DoReboot");
    cbn [shutdown_flags prepend res final mret M_ret orb];
    rewrite ?Hput; done.
Qed.

(** C1, at the input where it fails.  With [DoUninstall] and
    [DoShutdown] both set before a tick, the loop ends on that tick and
    the power action is the uninstall, but the reason left in
    [LastManagerExitReason] names DoShutdown. *)
Theorem exit_reason_names_last_flag :
  let ticks := [Scenario.steady false; Scenario.both_flags_tick; Scenario.steady false] in
  let o := main_run Scenario.host ticks Scenario.world in
  res o = Ok tt
  ∧ length (filter (λ e, e = SmUpdate) (events o)) = 2%nat
  ∧ params (final o) !! "LastManagerExitReason" = Some "DoShutdown 2024-01-01 00:00:03"
  ∧ HwUninstall ∈ events o
  ∧ HwShutdown ∉ events o.
Proof.
  cbv zeta. split; [vm_compute; reflexivity|].
  split; [vm_compute; reflexivity|].
  split; [vm_compute; reflexivity|].
  split; apply (bool_decide_unpack _); vm_compute; exact I.
Qed.

(** ** Start-up *)

Section Startup.

Context (H : Host).

Lemma set_unset_params_events (table : list (string * string)) :
  emits_only prepare_event (set_unset_params table).
Proof. unfold set_unset_params, params_get, params_put. emits; exact I. Qed.

Lemma manager_init_head_events : emits_only prepare_event (manager_init_head H).
Proof.
  unfold manager_init_head.
  repeat (apply emits_only_bind; [| intros ?]);
    try apply set_unset_params_events;
    unfold params_clear_all, params_get_bool, params_put_bool, params_put,
      passive_override, getenv;
    emits; exact I.
Qed.

Lemma manager_init_tail_events : emits_only prepare_event (manager_init_tail H).
Proof.
  unfold manager_init_tail, register, setenv, path_exists, os_remove,
    params_get, params_put_bool, params_put.
  emits; exact I.
Qed.

Lemma manager_init_events : emits_only prepare_event (manager_init H).
Proof.
  unfold manager_init. apply emits_only_bind; [apply manager_init_head_events|].
  intros _. apply manager_init_tail_events.
Qed.

Lemma proc_prepare_run (i : nat) (w : World) (p : ManagerProcess) :
  managed_processes w !! i = Some p →
  proc_prepare i w = mkOutcome (Ok tt) w [ProcPrepare (name p)].
Proof. intros Hp. unfold proc_prepare. by rewrite get_world_bind, Hp. Qed.

Lemma for_each_proc_prepare (n i : nat) (w : World) :
  (i + n)%nat = length (managed_processes w) →
  for_each (seq i n) proc_prepare w =
  mkOutcome (Ok tt) w (map (λ p, ProcPrepare (name p)) (drop i (managed_processes w))).
Proof.
  revert i. induction n as [|n IH]; intros i Hlen.
  - cbn [seq for_each]. by rewrite drop_ge by lia.
  - cbn [seq for_each].
    destruct (lookup_lt_is_Some_2 (managed_processes w) i) as [p Hp]; [lia|].
    rewrite bind_run, (proc_prepare_run _ _ _ Hp).
    cbn [res final events prepend]. rewrite IH by lia.
    cbn [res final events app]. by rewrite (drop_S _ _ i Hp).
Qed.

Lemma manager_prepare_run (w : World) :
  manager_prepare w =
  mkOutcome (Ok tt) w (map (λ p, ProcPrepare (name p)) (managed_processes w)).
Proof.
  unfold manager_prepare, for_values. rewrite get_world_bind.
  by rewrite for_each_proc_prepare.
Qed.

(** [main] stops where [manager_init] raises. *)
Lemma main_init_raise (ticks : list Tick) (w : World) (e : PyExc) :
  res (manager_init H w) = Raise e →
  main H ticks w = mkOutcome (Raise e) (final (manager_init H w)) (events (manager_init H w)).
Proof.
  intros Hinit. unfold main, getenv. run. by rewrite bind_run, Hinit.
Qed.

End Startup.

(** Where the environment has [PASSIVE], the override either fails on
    the conversion to an integer or leaves a value in the store. *)
Lemma passive_override_sets (w : World) (v : string) :
  environ w !! "PASSIVE" = Some v →
  res (passive_override w) = Ok tt →
  is_Some (params (final (passive_override w)) !! "Passive").
Proof.
  intros Henv. unfold passive_override, getenv.
  rewrite bind_bind, get_world_bind, ret_bind, Henv.
  destruct (Py.int v) as [n|]; [|discriminate]. intros _.
  unfold params_put_bool, params_put. rewrite modify_bind.
  cbn [emit final with_params params]. unfold Store.put.
  rewrite lookup_insert_eq. by eexists.
Qed.

(** C6. If [manager_init] gets past the passive override and the store
    then holds no [Passive], [manager_init] raises the exception
    [Passive must be set to continue]; [main] raises it too, having made
    no call beyond those of the initialisation so far, so the loop is
    never entered. *)
Theorem passive_missing_is_fatal (H : Host) (ticks : list Tick) (w : World) :
  let oh := manager_init_head H w in
  let failure := Exception "Passive must be set to continue" in
  res oh = Ok tt →
  params (final oh) !! "Passive" = None →
  res (manager_init H w) = Raise failure
  ∧ res (main H ticks w) = Raise failure
  ∧ events (main H ticks w) = events oh
  ∧ Forall (λ e, ¬ loop_entered e) (events (main H ticks w)).
Proof.
  cbv zeta. intros Hhead Hnone.
  assert (manager_init H w =
          mkOutcome (Raise (Exception "Passive must be set to continue"))
            (final (manager_init_head H w)) (events (manager_init_head H w))) as Hinit.
  { unfold manager_init. rewrite bind_run, Hhead.
    unfold manager_init_tail, params_get. rewrite bind_bind, get_world_bind, ret_bind.
    unfold Store.get. rewrite Hnone, raise_bind.
    unfold prepend. cbn [res final events]. by rewrite app_nil_r. }
  split; [by rewrite Hinit|].
  rewrite (main_init_raise H ticks w (Exception "Passive must be set to continue"))
    by (by rewrite Hinit).
  rewrite Hinit. cbn [res final events]. split; [done|]. split; [done|].
  eapply Forall_impl; [apply manager_init_head_events|].
  intros e He. destruct e; try (by intros []); destruct He.
Qed.

Lemma passive_missing_is_fatal_witness :
  res (main Scenario.host Scenario.road_trip Scenario.fresh_world)
  = Raise (Exception "Passive must be set to continue").
Proof.
  apply (passive_missing_is_fatal Scenario.host Scenario.road_trip Scenario.fresh_world).
  - vm_compute. reflexivity.
  - vm_compute. reflexivity.
Defined.

(** C8, as stated, fails: with [PREPAREONLY] set the ui process is not
    started. *)
Lemma prepare_only_skips_ui :
  res (main Scenario.host Scenario.road_trip Scenario.prepare_world) = Ok tt
  ∧ ProcStart "ui" ∉ events (main Scenario.host Scenario.road_trip Scenario.prepare_world).
Proof.
  split; [vm_compute; reflexivity|].
  apply (bool_decide_unpack _). vm_compute. exact I.
Qed.

(** C8, amended. With [PREPAREONLY] set and [manager_init] returning,
    [main] returns after the calls of [manager_init], the removal of the
    prebuilt file if there is one, the model switcher and one [prepare]
    per managed process in enumeration order.  It starts no process: the
    process table is as [manager_init] left it; it does not install the
    SIGTERM handler, and makes no call of the loop, of the stop phases or
    of the power action. *)
Theorem prepare_only_stops_after_prepare (H : Host) (ticks : list Tick) (w : World) :
  is_Some (environ w !! "PREPAREONLY") →
  res (manager_init H w) = Ok tt →
  let oi := manager_init H w in
  let o := main H ticks w in
  res o = Ok tt
  ∧ events o =
      events oi
      ++ (if bool_decide (is_Some (files (final oi) !! "/data/openpilot/prebuilt"))
          then [Remove "/data/openpilot/prebuilt"] else [])
      ++ [ModelSwitcher]
      ++ map (λ p, ProcPrepare (name p)) (managed_processes (final oi))
  ∧ managed_processes (final o) = managed_processes (final oi)
  ∧ Forall (λ e, prepare_event e ∧ ¬ loop_entered e ∧ ¬ is_stop e ∧ ¬ is_hw e
                 ∧ ∀ p, e ≠ ProcStart p) (events o).
Proof.
  intros Hprep Hinit. cbv zeta.
  assert (main H ticks w =
          prepend (events (manager_init H w))
            (prepend (if bool_decide (is_Some (files (final (manager_init H w))
                                       !! "/data/openpilot/prebuilt"))
                      then [Remove "/data/openpilot/prebuilt"] else [])
               (prepend [ModelSwitcher]
                  (manager_prepare
                     (if bool_decide (is_Some (files (final (manager_init H w))
                                       !! "/data/openpilot/prebuilt"))
                      then with_files (delete "/data/openpilot/prebuilt")
                             (final (manager_init H w))
                      else final (manager_init H w)))))) as Hmain.
  { unfold main, getenv. rewrite bind_bind, get_world_bind, ret_bind.
    rewrite (bool_decide_eq_true_2 _ Hprep). cbn [negb].
    rewrite bind_run, Hinit. f_equal.
    unfold path_exists. rewrite bind_bind, get_world_bind, ret_bind.
    destruct (bool_decide (is_Some (files (final (manager_init H w))
                                      !! "/data/openpilot/prebuilt"))).
    - unfold os_remove. run.
      rewrite bind_run, manager_prepare_run. cbn [res final events].
      rewrite ret_run. unfold prepend. cbn [res final events]. by rewrite app_nil_r.
    - run.
      rewrite bind_run, manager_prepare_run. cbn [res final events].
      rewrite ret_run. unfold prepend. cbn [res final events]. by rewrite app_nil_r. }
  rewrite Hmain, manager_prepare_run. cbn [prepend res final events].
  clear Hmain.
  assert (∀ e, prepare_event e →
            prepare_event e ∧ ¬ loop_entered e ∧ ¬ is_stop e ∧ ¬ is_hw e
            ∧ ∀ p, e ≠ ProcStart p) as Hev.
  { intros e He. destruct e; try destruct He; by repeat split; try intros []. }
  pose proof (manager_init_events H w) as Hie.
  destruct (bool_decide (is_Some (files (final (manager_init H w))
                                    !! "/data/openpilot/prebuilt")));
    cbn [with_files managed_processes];
    (split; [reflexivity|]); (split; [reflexivity|]); (split; [reflexivity|]).
  - apply Forall_app. split; [eapply Forall_impl; [exact Hie | exact Hev]|].
    constructor; [by apply Hev|]. constructor; [by apply Hev|].
    apply List.Forall_map, Forall_true. intros p. by apply Hev.
  - apply Forall_app. split; [eapply Forall_impl; [exact Hie | exact Hev]|].
    constructor; [by apply Hev|].
    apply List.Forall_map, Forall_true. intros p. by apply Hev.
Qed.

Lemma prepare_only_stops_after_prepare_witness :
  res (main Scenario.host Scenario.road_trip Scenario.prepare_world) = Ok tt.
Proof.
  apply (prepare_only_stops_after_prepare Scenario.host Scenario.road_trip
           Scenario.prepare_world).
  - vm_compute. eauto.
  - vm_compute. reflexivity.
Defined.

(** ** What a computation leaves alone *)

Section Keeps.

Context {B : Type} (f : World → B).

Lemma keeps_ret {A} (a : A) : keeps f (mret a : M A).
Proof. by intros w. Qed.

Lemma keeps_raise {A} (e : PyExc) : keeps f (raise e : M A).
Proof. by intros w. Qed.

Lemma keeps_waiting {A} : keeps f (waiting : M A).
Proof. by intros w. Qed.

Lemma keeps_get_world : keeps f get_world.
Proof. by intros w. Qed.

Lemma keeps_emit (e : Event) : keeps f (emit e).
Proof. by intros w. Qed.

Lemma keeps_modify (g : World → World) : (∀ w, f (g w) = f w) → keeps f (modify g).
Proof. intros Hg w. apply Hg. Qed.

Lemma keeps_bind {A C} (m : M A) (k : A → M C) :
  keeps f m → (∀ a, keeps f (k a)) → keeps f (m ≫= k).
Proof.
  intros Hm Hk w. rewrite bind_run.
  destruct (res (m w)) as [a| |]; cbn [prepend final]; try apply Hm.
  by rewrite Hk, Hm.
Qed.

Lemma keeps_try_except (body : M unit) (handler : PyExc → M unit) :
  keeps f body → (∀ e, keeps f (handler e)) → keeps f (try_except body handler).
Proof.
  intros Hb Hh w. unfold try_except.
  destruct (res (body w)) as [a|e|]; try apply Hb.
  destruct (is_Exception e); [|apply Hb].
  cbn [final]. by rewrite Hh, Hb.
Qed.

Lemma keeps_try_finally {A} (body : M A) (fin : M unit) :
  keeps f body → keeps f fin → keeps f (try_finally body fin).
Proof.
  intros Hb Hf w. unfold try_finally.
  destruct (res (body w)); cbn [final]; try apply Hb; by rewrite Hf, Hb.
Qed.

Lemma keeps_for_each {A} (l : list A) (body : A → M unit) :
  (∀ x, keeps f (body x)) → keeps f (for_each l body).
Proof.
  intros Hb. induction l as [|x l IH]; cbn [for_each].
  - apply keeps_ret.
  - apply keeps_bind; [apply Hb | intros _; exact IH].
Qed.

End Keeps.

(** Decomposes a [keeps] goal along the structure of the program; what is
    left are the conditions on the state changes. *)
Ltac keeps_step :=
  lazymatch goal with
  | |- keeps _ (mbind _ _) => apply keeps_bind; [| intros ?]
  | |- keeps _ (mret _) => apply keeps_ret
  | |- keeps _ (raise _) => apply keeps_raise
  | |- keeps _ waiting => apply keeps_waiting
  | |- keeps _ get_world => apply keeps_get_world
  | |- keeps _ (emit _) => apply keeps_emit
  | |- keeps _ (modify _) => apply keeps_modify; intros ?
  | |- keeps _ (try_except _ _) => apply keeps_try_except; [| intros ?]
  | |- keeps _ (try_finally _ _) => apply keeps_try_finally
  | |- keeps _ (for_each _ _) => apply keeps_for_each; intros ?
  | |- keeps _ (let _ := _ in _) => cbv zeta
  | |- keeps _ (if ?b then _ else _) => destruct b
  | |- keeps _ (match ?x with _ => _ end) => destruct x
  end.
Ltac keeps_all := repeat keeps_step.

(** ** One iteration *)

Section Iteration.

Context (H : Host).

(** On a WSL2 or Ubuntu host the flag loop does nothing. *)
Lemma shutdown_flags_wsl (flags : list string) (now : string) (sd : bool) (w : World) :
  on_wsl2 w = true → shutdown_flags flags now sd w = mkOutcome (Ok sd) w [].
Proof.
  intros Hwsl. revert sd. induction flags as [|param rest IH]; intros sd; [done|].
  rewrite shutdown_flags_cons, Hwsl. cbn [negb]. rewrite andb_false_r. apply IH.
Qed.

(** The flag loop changes nothing but the key [LastManagerExitReason]. *)
Lemma shutdown_flags_frame (flags : list string) (now : string) (sd : bool) (w : World) :
  let w' := final (shutdown_flags flags now sd w) in
  environ w' = environ w ∧ files w' = files w
  ∧ managed_processes w' = managed_processes w
  ∧ ∀ k, k ≠ "LastManagerExitReason" → params w' !! k = params w !! k.
Proof.
  cbv zeta. revert sd w. induction flags as [|param rest IH]; intros sd w; [done|].
  rewrite shutdown_flags_cons.
  destruct (Store.get_bool (params w) param && negb (on_wsl2 w)); [|apply IH].
  cbn [prepend final].
  match goal with |- context [shutdown_flags rest now true ?w1] =>
    destruct (IH true w1) as (He & Hf & Hp & Hk) end.
  rewrite He, Hf, Hp. repeat split; try done.
  intros k Hne. rewrite (Hk k Hne). unfold with_params, Store.put. cbn [params].
  by rewrite lookup_insert_ne.
Qed.

(** An iteration without a fault: the calls up to the flags, and then
    the flag loop in the world the supervisor left. *)
Lemma loop_body_run (not_run : list string) (t : Tick) (pt : Z) (sp : bool) (w : World) :
  t_fault t = None →
  loop_body H not_run t pt sp w =
  prepend (tick_events H not_run pt sp t w)
    ((shutdown_flags ["DoUninstall"; "DoShutdown"; "DoReboot"] (t_now t) false
      ≫= λ sd, mret (sd, (pt + 1) `mod` 10, sampled sp t))
       (tick_world H not_run sp t w)).
Proof.
  intros Hf. unfold loop_body, tick_events, tick_world, tick_procs, tick_params, sampled.
  set (flags := "DoUninstall" :: _).
  rewrite bind_run, sm_update_run, Hf. cbn [res final events].
  unfold params_clear_all, write_onroad_params, ensure_running, pm_send, fault_at.
  rewrite Hf. cbv zeta.
  destruct sp, (default _ (t_sample t));
    cbn [andb negb eqb edge_clears foldr map app];
    destruct ((pt + 1) `mod` 10 =? 0); run; reflexivity.
Qed.

End Iteration.

Section IterationFacts.

Context (H : Host).

Lemma shutdown_flags_flag_events (flags : list string) (now : string) (sd : bool) :
  emits_only flag_event (shutdown_flags flags now sd).
Proof.
  revert sd. induction flags as [|param rest IH]; intros sd; simpl.
  - apply emits_only_ret.
  - unfold params_get_bool, is_running_on_wsl2, params_put.
    emits; simpl; auto; apply IH.
Qed.

Lemma flag_events_sends (l : list Event) : Forall flag_event l → sends l = [].
Proof. induction 1 as [|e l He _ IH]; [done|]. by destruct e. Qed.

Lemma sends_app (l1 l2 : list Event) : sends (l1 ++ l2) = sends l1 ++ sends l2.
Proof.
  induction l1 as [|e l1 IH]; [done|].
  destruct e; cbn [app sends]; by rewrite ?IH.
Qed.

(** What follows the tick's own calls in an iteration without a fault. *)
Lemma loop_body_tail (not_run : list string) (t : Tick) (pt : Z) (sp : bool) (w : World) :
  t_fault t = None →
  let o := loop_body H not_run t pt sp w in
  ∃ sd fl,
    res o = Ok (sd, (pt + 1) `mod` 10, sampled sp t)
    ∧ events o = tick_events H not_run pt sp t w ++ fl
    ∧ Forall flag_event fl
    ∧ final o = final (shutdown_flags ["DoUninstall"; "DoShutdown"; "DoReboot"]
                         (t_now t) false (tick_world H not_run sp t w)).
Proof.
  intros Hf. cbv zeta. rewrite (loop_body_run H not_run t pt sp w Hf).
  set (flags := "DoUninstall" :: _).
  destruct (shutdown_flags_returns flags (t_now t) false (tick_world H not_run sp t w))
    as [sd Hsd].
  exists sd, (events (shutdown_flags flags (t_now t) false (tick_world H not_run sp t w))).
  rewrite bind_run, Hsd. cbn [prepend res final events mret M_ret].
  rewrite app_nil_r. repeat split; try done.
  apply shutdown_flags_flag_events.
Qed.

End IterationFacts.

(** X1. An iteration without a fault makes its calls in a fixed order:
    [sm.update()], then the clear of the category of the edge if
    [started] changed, then [write_onroad_params] with the new value if
    it changed, then exactly one [ensure_running] with the new value and
    the ignore list; what follows is only printing, logging, the
    heartbeat and the flag loop. *)
Theorem iteration_order (H : Host) (not_run : list string) (t : Tick) (pt : Z)
    (sp : bool) (w : World) :
  t_fault t = None →
  let started := sampled sp t in
  let o := loop_body H not_run t pt sp w in
  ∃ tail,
    events o =
      [SmUpdate]
      ++ map ParamsClearAll (edge_clears sp started)
      ++ (if Bool.eqb started sp then [] else [WriteOnroadParams started])
      ++ [EnsureRunning started not_run]
      ++ tail
    ∧ Forall after_supervisor tail.
Proof.
  intros Hf. cbv zeta.
  destruct (loop_body_tail H not_run t pt sp w Hf) as (sd & fl & _ & Hev & Hfl & _).
  rewrite Hev. unfold tick_events. cbv zeta.
  set (procs := tick_procs H not_run sp t w).
  exists ((if (pt + 1) `mod` 10 =? 0 then [Print (running procs)] else [])
          ++ [CloudlogDebug (running procs); PmSend (process_state_msgs procs)] ++ fl).
  split.
  - by rewrite <- !app_assoc.
  - apply Forall_app. split; [destruct (_ =? 0); by repeat constructor|].
    constructor; [exact I|]. constructor; [exact I|].
    eapply Forall_impl; [exact Hfl|]. intros e He. by destruct e.
Qed.

Lemma iteration_order_witness :
  ∃ tail,
    events (loop_body Scenario.host [] (Scenario.steady true) 0 false Scenario.world) =
      [SmUpdate] ++ [ParamsClearAll CLEAR_ON_ONROAD_TRANSITION]
      ++ [WriteOnroadParams true] ++ [EnsureRunning true []] ++ tail
    ∧ Forall after_supervisor tail.
Proof.
  apply (iteration_order Scenario.host [] (Scenario.steady true) 0 false Scenario.world).
  reflexivity.
Defined.

(** X2. An iteration without a fault publishes exactly one heartbeat,
    which lists every managed process with its liveness as the
    [ensure_running] call of that same iteration left the table. *)
Theorem heartbeat_reflects_supervisor (H : Host) (not_run : list string) (t : Tick)
    (pt : Z) (sp : bool) (w : World) :
  t_fault t = None →
  let o := loop_body H not_run t pt sp w in
  managed_processes (final o) =
    ensure_running_fx H (sampled sp t) not_run (tick_params H sp t (params w))
      (managed_processes w)
  ∧ sends (events o) = [process_state_msgs (managed_processes (final o))].
Proof.
  intros Hf. cbv zeta.
  destruct (loop_body_tail H not_run t pt sp w Hf) as (sd & fl & _ & Hev & Hfl & Hfin).
  rewrite Hev, Hfin.
  destruct (shutdown_flags_frame ["DoUninstall"; "DoShutdown"; "DoReboot"] (t_now t)
              false (tick_world H not_run sp t w)) as (_ & _ & -> & _).
  split; [done|].
  rewrite sends_app, (flag_events_sends _ Hfl), app_nil_r.
  unfold tick_events. cbv zeta. rewrite !sends_app.
  cbn [tick_world managed_processes].
  destruct (edge_clears sp (sampled sp t)) as [|c [|]] eqn:Hc;
    destruct (Bool.eqb _ _), (_ =? 0); try done.
  all: destruct sp, (sampled true t), (sampled false t); discriminate.
Qed.

Lemma heartbeat_reflects_supervisor_witness :
  sends (events (loop_body Scenario.host [] (Scenario.steady true) 0 false Scenario.world))
  = [process_state_msgs
       (managed_processes
          (final (loop_body Scenario.host [] (Scenario.steady true) 0 false Scenario.world)))].
Proof.
  apply (heartbeat_reflects_supervisor Scenario.host [] (Scenario.steady true) 0 false
           Scenario.world).
  reflexivity.
Defined.

(** X3. When the poll times out, the iteration goes on with the last
    known value of [started]: it clears no category, does not call
    [write_onroad_params], calls [ensure_running] with the previous
    value, and hands that value on to the next iteration. *)
Theorem timeout_is_steady (H : Host) (not_run : list string) (t : Tick) (pt : Z)
    (sp : bool) (w : World) :
  t_sample t = None →
  t_fault t = None →
  let o := loop_body H not_run t pt sp w in
  (∃ sd, res o = Ok (sd, (pt + 1) `mod` 10, sp))
  ∧ ∃ tail, events o = [SmUpdate; EnsureRunning sp not_run] ++ tail
            ∧ Forall after_supervisor tail.
Proof.
  intros Hs Hf. cbv zeta.
  destruct (loop_body_tail H not_run t pt sp w Hf) as (sd & fl & Hres & Hev & Hfl & _).
  unfold tick_events, tick_procs, sampled in *. rewrite Hs in *. cbn [default] in *.
  split; [by exists sd|].
  rewrite Hev.
  replace (edge_clears sp sp) with (@nil ParamKeyType) by (by destruct sp).
  rewrite eqb_reflx. cbn [map app].
  eexists. split; [reflexivity|].
  apply Forall_app. split.
  - destruct (_ =? 0); by repeat constructor.
  - eapply Forall_impl; [exact Hfl|]. intros e He. by destruct e.
Qed.

Lemma timeout_is_steady_witness :
  ∃ sd, res (loop_body Scenario.host [] Scenario.timeout_tick 0 true Scenario.world)
        = Ok (sd, 1, true).
Proof.
  apply (timeout_is_steady Scenario.host [] Scenario.timeout_tick 0 true Scenario.world);
    reflexivity.
Defined.

(** ** The end of the loop *)

Section LoopEnd.

Context (H : Host).

Lemma shutdown_flags_keeps_files (flags : list string) (now : string) (sd : bool) :
  keeps files (shutdown_flags flags now sd).
Proof. intros w. by destruct (shutdown_flags_frame flags now sd w) as (_ & ? & _). Qed.


Lemma loop_body_keeps_files (not_run : list string) (t : Tick) (pt : Z) (sp : bool) :
  keeps files (loop_body H not_run t pt sp).
Proof.
  unfold loop_body, sm_update, params_clear_all, write_onroad_params,
    ensure_running, pm_send.
  keeps_all; try apply shutdown_flags_keeps_files; reflexivity.
Qed.


Lemma manager_loop_keeps {B} (f : World → B) (not_run : list string) :
  (∀ t pt sp, keeps f (loop_body H not_run t pt sp)) →
  ∀ ticks pt sp, keeps f (manager_loop H not_run ticks pt sp).
Proof.
  intros Hbody ticks. induction ticks as [|t ticks IH]; intros pt sp; cbn [manager_loop].
  - apply keeps_waiting.
  - apply keeps_bind; [apply Hbody|].
    intros r. destruct (r.1.1); [apply keeps_ret | apply IH].
Qed.

Lemma manager_thread_keeps {B} (f : World → B) (ticks : list Tick) :
  (∀ g w, f (with_params g w) = f w) →
  (∀ g w, f (with_procs g w) = f w) →
  (∀ not_run t pt sp, keeps f (loop_body H not_run t pt sp)) →
  keeps f (manager_thread H ticks).
Proof.
  intros Hp Hq Hbody. unfold manager_thread, write_onroad_params, ensure_running.
  keeps_all; try apply Hp; try apply Hq.
  by apply manager_loop_keeps.
Qed.

Lemma quiet_on_wsl_bind {A} (m : M A) (k : A → M (bool * Z * bool)) :
  keeps files m → (∀ a, quiet_on_wsl (k a)) → quiet_on_wsl (m ≫= k).
Proof.
  intros Hm Hk w Hwsl. rewrite bind_run.
  destruct (res (m w)) as [a| |] eqn:Hr; cbn [prepend res];
    try (intros (? & ? & ?); discriminate).
  apply Hk. unfold on_wsl2 in *. by rewrite Hm.
Qed.

Lemma loop_body_quiet_on_wsl (not_run : list string) (t : Tick) (pt : Z) (sp : bool) :
  quiet_on_wsl (loop_body H not_run t pt sp).
Proof.
  unfold loop_body.
  repeat (apply quiet_on_wsl_bind;
          [unfold sm_update, params_clear_all, write_onroad_params,
             ensure_running, pm_send; keeps_all; reflexivity
          | intros ?; cbv zeta]).
  intros w Hwsl. rewrite bind_run, shutdown_flags_wsl by done.
  cbn [prepend res mret M_ret]. intros (? & ? & ?). discriminate.
Qed.

Lemma manager_loop_on_wsl (not_run : list string) (ticks : list Tick) (pt : Z) (sp : bool)
    (w : World) :
  on_wsl2 w = true → res (manager_loop H not_run ticks pt sp w) ≠ Ok tt.
Proof.
  revert pt sp w. induction ticks as [|t ticks IH]; intros pt sp w Hwsl; [done|].
  cbn [manager_loop]. rewrite bind_run.
  pose proof (loop_body_quiet_on_wsl not_run t pt sp w Hwsl) as Hq.
  pose proof (loop_body_keeps_files not_run t pt sp w) as Hfiles.
  destruct (res (loop_body H not_run t pt sp w)) as [[[sd pt'] st]| |];
    cbn [prepend res fst snd]; try done.
  destruct sd; [exfalso; apply Hq; by eexists _, _|].
  apply IH. unfold on_wsl2 in *. by rewrite Hfiles.
Qed.

End LoopEnd.

(** X4. On a host whose [/proc/version] names WSL2 or Ubuntu the loop
    never ends by itself, whatever flags are set and whatever the samples:
    [manager_thread] is still waiting or has raised, and it has written
    nothing to the store, so no exit reason. *)
Theorem wsl2_loop_never_ends (H : Host) (ticks : list Tick) (w : World) :
  on_wsl2 w = true →
  res (manager_thread H ticks w) ≠ Ok tt
  ∧ Forall no_put (events (manager_thread H ticks w)).
Proof.
  intros Hwsl.
  assert (res (manager_thread H ticks w) ≠ Ok tt) as Hres.
  { rewrite manager_thread_run. cbn [res]. by apply manager_loop_on_wsl. }
  split; [done | by apply manager_thread_quiet].
Qed.

Lemma wsl2_loop_never_ends_witness :
  res (manager_thread Scenario.host Scenario.road_trip Scenario.wsl_world) ≠ Ok tt.
Proof.
  apply (wsl2_loop_never_ends Scenario.host Scenario.road_trip Scenario.wsl_world).
  vm_compute. reflexivity.
Defined.

Section LoopExit.

Context (H : Host).






End LoopExit.







(** X7. The power action at the end of [main] makes at most one call to
    the hardware and changes nothing: none when no flag reads true, and
    otherwise one log line followed by the one call. *)
Theorem power_action_at_most_one (w : World) :
  let o := power_action w in
  let s := params w in
  res o = Ok tt ∧ final o = w
  ∧ (events o = [] ↔
       Store.get_bool s "DoUninstall" = false ∧ Store.get_bool s "DoReboot" = false
       ∧ Store.get_bool s "DoShutdown" = false)
  ∧ (events o = [] ∨ ∃ msg a, events o = [CloudlogWarning msg; a] ∧ is_hw a).
Proof.
  cbv zeta. rewrite power_action_run. cbn [res final events].
  split; [done|]. split; [done|]. unfold power_events.
  destruct (Store.get_bool _ "DoUninstall"), (Store.get_bool _ "DoReboot"),
    (Store.get_bool _ "DoShutdown");
    (split; [split; [discriminate || done | intros (? & ? & ?); (discriminate || done)]|]);
    first [by left | right; by eexists _, _].
Qed.

(** X8. The flag loop of an iteration returns [True] exactly when the
    host is not WSL2 or Ubuntu and one of the three flags reads true.
    When it returns [False] it has changed nothing and called nothing;
    when it returns [True] the store holds a [LastManagerExitReason] made
    of the name of a flag that reads true and the time; no other key
    changes. *)
Theorem flag_loop_outcome (now : string) (w : World) :
  let flags := ["DoUninstall"; "DoShutdown"; "DoReboot"] in
  let o := shutdown_flags flags now false w in
  let any := existsb (Store.get_bool (params w)) flags in
  res o = Ok (negb (on_wsl2 w) && any)
  ∧ (negb (on_wsl2 w) && any = false → final o = w ∧ events o = [])
  ∧ (negb (on_wsl2 w) && any = true →
       ∃ f, f ∈ flags ∧ Store.get_bool (params w) f = true
            ∧ params (final o) !! "LastManagerExitReason" = Some (f +:+ " " +:+ now))
  ∧ (∀ k, k ≠ "LastManagerExitReason" → params (final o) !! k = params w !! k).
Proof.
  cbv zeta.
  destruct (shutdown_flags_frame ["DoUninstall"; "DoShutdown"; "DoReboot"] now false w)
    as (_ & _ & _ & Hk).
  split; [|split; [|split; [|exact Hk]]].
  - destruct (on_wsl2 w) eqn:Hwsl; [by rewrite shutdown_flags_wsl|].
    destruct (shutdown_flags_reason now w Hwsl) as [-> _].
    cbn [negb andb existsb]. by rewrite orb_false_r, orb_assoc.
  - destruct (on_wsl2 w) eqn:Hwsl; [by rewrite shutdown_flags_wsl|].
    cbn [negb andb existsb]. rewrite orb_false_r. intros Hany.
    apply orb_false_iff in Hany as [HU Hany]. apply orb_false_iff in Hany as [HS HR].
    rewrite !shutdown_flags_cons, HU, HS, HR. by cbn [andb].
  - destruct (on_wsl2 w) eqn:Hwsl; [discriminate|].
    destruct (shutdown_flags_reason now w Hwsl) as [_ ->].
    cbn [negb andb existsb]. rewrite orb_false_r. intros Hany.
    destruct (Store.get_bool (params w) "DoReboot") eqn:HR.
    { exists "DoReboot". repeat split; [|done..]. set_solver. }
    destruct (Store.get_bool (params w) "DoShutdown") eqn:HS.
    { exists "DoShutdown". repeat split; [|done..]. set_solver. }
    destruct (Store.get_bool (params w) "DoUninstall") eqn:HU; [|discriminate].
    exists "DoUninstall". repeat split; [|done..]. set_solver.
Qed.

Lemma flag_loop_outcome_witness :
  ∃ f, f ∈ ["DoUninstall"; "DoShutdown"; "DoReboot"]
       ∧ Store.get_bool (params Scenario.wsl_world) f = true
       ∧ params (final (shutdown_flags ["DoUninstall"; "DoShutdown"; "DoReboot"] "now" false
                          (with_files (λ _, ∅) Scenario.wsl_world)))
           !! "LastManagerExitReason" = Some (f +:+ " " +:+ "now").
Proof.
  destruct (flag_loop_outcome "now" (with_files (λ _, ∅) Scenario.wsl_world))
    as (_ & _ & Hfire & _).
  apply Hfire. vm_compute. reflexivity.
Defined.

Lemma main_run_keeps (H : Host) (ticks : list Tick) {B} (f : World → B) :
  (∀ g w, f (with_params g w) = f w) →
  (∀ g w, f (with_procs g w) = f w) →
  (∀ not_run t pt sp, keeps f (loop_body H not_run t pt sp)) →
  keeps f (main_run H ticks).
Proof.
  intros Hp Hq Hbody. unfold main_run.
  apply keeps_bind; [apply keeps_emit | intros _].
  apply keeps_bind; [| intros _; intros w'; by rewrite power_action_run].
  apply keeps_try_finally.
  - apply keeps_try_except; [by apply manager_thread_keeps|].
    intros e. keeps_all.
  - intros w'. rewrite manager_cleanup_run. cbn [final]. by rewrite !Hq.
Qed.


(** ** Printing *)

Section Printing.

Context (H : Host).

Lemma prints_app (l1 l2 : list Event) : prints (l1 ++ l2) = (prints l1 + prints l2)%nat.
Proof.
  induction l1 as [|e l1 IH]; [done|].
  destruct e; cbn [app prints]; by rewrite ?IH.
Qed.

Lemma debugs_app (l1 l2 : list Event) : debugs (l1 ++ l2) = (debugs l1 + debugs l2)%nat.
Proof.
  induction l1 as [|e l1 IH]; [done|].
  destruct e; cbn [app debugs]; by rewrite ?IH.
Qed.

Lemma flag_events_silent (l : list Event) :
  Forall flag_event l → prints l = 0%nat ∧ debugs l = 0%nat.
Proof. induction 1 as [|e l He _ IH]; [done|]. by destruct e. Qed.

Lemma loop_body_prints (not_run : list string) (t : Tick) (pt : Z) (sp : bool) (w : World) :
  t_fault t = None →
  let o := loop_body H not_run t pt sp w in
  prints (events o) = (if (pt + 1) `mod` 10 =? 0 then 1%nat else 0%nat)
  ∧ debugs (events o) = 1%nat.
Proof.
  intros Hf. cbv zeta.
  destruct (loop_body_tail H not_run t pt sp w Hf) as (sd & fl & _ & -> & Hfl & _).
  destruct (flag_events_silent fl Hfl) as [Hp Hd].
  rewrite prints_app, debugs_app, Hp, Hd. unfold tick_events. cbv zeta.
  rewrite !prints_app, !debugs_app.
  destruct (edge_clears sp (sampled sp t)) as [|c [|]] eqn:Hc;
    destruct (Bool.eqb _ _), (_ =? 0); try done.
  all: destruct sp, (sampled true t), (sampled false t); discriminate.
Qed.

Lemma manager_loop_prints (not_run : list string) (ticks : list Tick) :
  Forall (λ t, t_fault t = None) ticks →
  ∀ pt sp w,
    0 ≤ pt < 10 →
    res (manager_loop H not_run ticks pt sp w) = Waiting →
    prints (events (manager_loop H not_run ticks pt sp w))
      = ((Z.to_nat pt + length ticks) / 10)%nat
    ∧ debugs (events (manager_loop H not_run ticks pt sp w)) = length ticks.
Proof.
  induction 1 as [|t ticks Hf _ IH]; intros pt sp w Hpt.
  - intros _. cbn [manager_loop waiting events prints debugs length].
    split; [|done]. rewrite Nat.add_0_r. symmetry. apply Nat.div_small. lia.
  - cbn [manager_loop length]. rewrite bind_run.
    destruct (loop_body_tail H not_run t pt sp w Hf) as (sd & fl & Hres & _).
    destruct (loop_body_prints not_run t pt sp w Hf) as [Hp Hd].
    rewrite Hres. cbn [prepend res events fst snd].
    destruct sd; [discriminate|]. intros Hw.
    assert (0 ≤ (pt + 1) `mod` 10 < 10) as Hpt' by (apply Z.mod_pos_bound; lia).
    destruct (IH _ (sampled sp t) (final (loop_body H not_run t pt sp w)) Hpt' Hw)
      as [IHp IHd].
    rewrite prints_app, debugs_app, Hp, Hd, IHp, IHd. split; [|done].
    destruct (decide (pt = 9)) as [-> | Hne].
    + change ((9 + 1) `mod` 10) with 0. change (0 =? 0) with true.
      change (Z.to_nat 0) with 0%nat. change (Z.to_nat 9) with 9%nat.
      replace (9 + S (length ticks))%nat with (1 * 10 + length ticks)%nat by lia.
      rewrite Nat.div_add_l by lia. reflexivity.
    + rewrite Z.mod_small by lia.
      destruct (pt + 1 =? 0) eqn:Hz; [lia|].
      replace (Z.to_nat (pt + 1) + length ticks)%nat
        with (Z.to_nat pt + S (length ticks))%nat by lia.
      reflexivity.
Qed.

End Printing.

(** X10. While the loop runs without a fault, it logs the process list
    in every iteration and prints it in every tenth: after [n] iterations
    it has logged it [n] times and printed it [n / 10] times. *)
Theorem print_every_tenth (H : Host) (ticks : list Tick) (w : World) :
  Forall (λ t, t_fault t = None) ticks →
  res (manager_thread H ticks w) = Waiting →
  prints (events (manager_thread H ticks w)) = (length ticks / 10)%nat
  ∧ debugs (events (manager_thread H ticks w)) = length ticks.
Proof.
  intros Hf. rewrite manager_thread_run. cbn [res events]. intros Hw.
  cbn [app prints debugs].
  match type of Hw with res (manager_loop _ ?nr _ _ _ ?w1) = _ =>
    destruct (manager_loop_prints H nr ticks Hf 0 false w1) as [Hp Hd]; [lia | done |]
  end.
  by rewrite Hp, Hd.
Qed.

Lemma print_every_tenth_witness :
  prints (events (manager_thread Scenario.host
                    (Scenario.road_trip ++ Scenario.road_trip ++ Scenario.road_trip)
                    Scenario.world)) = 1%nat.
Proof.
  apply (print_every_tenth Scenario.host
           (Scenario.road_trip ++ Scenario.road_trip ++ Scenario.road_trip) Scenario.world).
  - repeat constructor.
  - vm_compute. reflexivity.
Defined.

(** ** Invariants of the start-up *)

Section Stable.

Context (P : World → Prop).

Lemma stable_ret {A} (a : A) : stable P (mret a : M A).
Proof. by intros w. Qed.

Lemma stable_raise {A} (e : PyExc) : stable P (raise e : M A).
Proof. by intros w. Qed.

Lemma stable_get_world : stable P get_world.
Proof. by intros w. Qed.

Lemma stable_emit (e : Event) : stable P (emit e).
Proof. by intros w. Qed.

Lemma stable_modify (g : World → World) : (∀ w, P w → P (g w)) → stable P (modify g).
Proof. intros Hg w. apply Hg. Qed.

Lemma stable_bind {A C} (m : M A) (k : A → M C) :
  stable P m → (∀ a, stable P (k a)) → stable P (m ≫= k).
Proof.
  intros Hm Hk w Hw. rewrite bind_run.
  destruct (res (m w)) as [a| |]; cbn [prepend final]; try by apply Hm.
  by apply Hk, Hm.
Qed.

End Stable.

Ltac stable_step :=
  lazymatch goal with
  | |- stable _ (mbind _ _) => apply stable_bind; [| intros ?]
  | |- stable _ (mret _) => apply stable_ret
  | |- stable _ (raise _) => apply stable_raise
  | |- stable _ get_world => apply stable_get_world
  | |- stable _ (emit _) => apply stable_emit
  | |- stable _ (modify _) => apply stable_modify; intros ? ?
  | |- stable _ (let _ := _ in _) => cbv zeta
  | |- stable _ (if ?b then _ else _) => destruct b
  | |- stable _ (match ?x with _ => _ end) => destruct x
  end.
Ltac stable_all := repeat stable_step.

Section Settings.

Context (H : Host) (k v : string).

Let holds (w : World) : Prop := params w !! k = Some v.

Lemma stable_put (k' v' : string) : k ≠ k' → stable holds (params_put k' v').
Proof.
  intros Hne. unfold params_put. stable_all.
  unfold holds, with_params, Store.put in *. cbn [params]. by rewrite lookup_insert_ne.
Qed.

Lemma stable_clear_all (t : ParamKeyType) :
  key_type H k t = false → stable holds (params_clear_all H t).
Proof.
  intros Ht. unfold params_clear_all. stable_all.
  unfold holds, with_params, Store.clear_all in *. cbn [params].
  by apply map_lookup_filter_Some.
Qed.

Lemma stable_set_unset_params (table : list (string * string)) :
  stable holds (set_unset_params table).
Proof.
  intros w Hw. rewrite set_unset_params_run. unfold holds in *.
  cbn [final with_params params]. by rewrite seed_lookup, Hw.
Qed.

Lemma stable_init_head :
  survives_clears H k → k ∉ init_written_keys → stable holds (manager_init_head H).
Proof.
  intros (H1 & H2 & H3 & H4) Hk. unfold init_written_keys in Hk.
  rewrite !not_elem_of_cons in Hk. destruct Hk as (? & ? & _).
  unfold manager_init_head.
  apply stable_bind; [apply stable_emit | intros _].
  apply stable_bind; [apply stable_emit | intros _].
  apply stable_bind; [by apply stable_clear_all | intros _].
  apply stable_bind; [by apply stable_clear_all | intros _].
  apply stable_bind; [by apply stable_clear_all | intros _].
  apply stable_bind; [| intros _].
  { destruct (is_release_branch H); [by apply stable_clear_all; apply H4 | apply stable_ret]. }
  unfold params_get_bool. apply stable_bind; [stable_all; done | intros lock].
  apply stable_bind; [| intros _].
  { destruct lock; [by apply stable_put | apply stable_ret]. }
  apply stable_bind; [apply stable_set_unset_params | intros _].
  unfold passive_override, getenv, params_put_bool.
  stable_all; try done. by apply stable_put.
Qed.

Lemma stable_init_tail :
  k ∉ init_written_keys →
  (∀ s, (register_fx H s).2 !! k = s !! k) →
  stable holds (manager_init_tail H).
Proof.
  intros Hk Hreg. unfold init_written_keys in Hk.
  rewrite !not_elem_of_cons in Hk.
  destruct Hk as (? & ? & ? & ? & ? & ? & ? & ? & ? & ? & _).
  unfold manager_init_tail, params_get, register, setenv, path_exists, os_remove,
    params_put_bool.
  repeat (apply stable_bind; [| intros ?]);
    try (by apply stable_put); stable_all; try done.
  unfold holds, with_params in *. cbn [params]. by rewrite Hreg.
Qed.

End Settings.

(** X11. [manager_init] never resets a stored setting: a value stored
    under a key that none of its clears removes, that is not one of the
    keys it always writes, and that registration leaves alone, is still
    stored when [manager_init] ends, with whatever result. *)
Theorem settings_survive_init (H : Host) (w : World) (k v : string) :
  params w !! k = Some v →
  survives_clears H k →
  k ∉ init_written_keys →
  (∀ s, (register_fx H s).2 !! k = s !! k) →
  params (final (manager_init H w)) !! k = Some v.
Proof.
  intros Hw Hclear Hk Hreg.
  assert (stable (λ w, params w !! k = Some v) (manager_init H)) as Hst.
  { unfold manager_init. apply stable_bind.
    - by apply stable_init_head.
    - intros _. by apply stable_init_tail. }
  by apply Hst.
Qed.

Lemma settings_survive_init_witness :
  params (final (manager_init Scenario.host Scenario.korean_world)) !! "LanguageSetting"
  = Some "main_ko".
Proof.
  apply (settings_survive_init Scenario.host Scenario.korean_world).
  - vm_compute. reflexivity.
  - repeat split; intros; reflexivity.
  - apply (bool_decide_unpack _). vm_compute. exact I.
  - intros s. cbn [Scenario.host register_fx snd]. by rewrite lookup_insert_ne.
Defined.

(** ** Registration *)

Section Registration.

Context (H : Host).

Lemma manager_init_head_keeps_environ : keeps environ (manager_init_head H).
Proof.
  unfold manager_init_head, params_clear_all, params_get_bool, set_unset_params,
    params_get, passive_override, getenv, params_put_bool, params_put.
  keeps_all; reflexivity.
Qed.

Lemma manager_init_head_keeps_files : keeps files (manager_init_head H).
Proof.
  unfold manager_init_head, params_clear_all, params_get_bool, set_unset_params,
    params_get, passive_override, getenv, params_put_bool, params_put.
  keeps_all; reflexivity.
Qed.

Lemma manager_init_keeps_procs : keeps managed_processes (manager_init H).
Proof.
  unfold manager_init, manager_init_head, manager_init_tail, params_clear_all,
    params_get_bool, set_unset_params, params_get, passive_override, getenv,
    register, setenv, path_exists, os_remove, params_put_bool, params_put.
  keeps_all; reflexivity.
Qed.

(** [manager_init_tail] when registration gives no identity. *)
Lemma manager_init_tail_unregistered (w : World) :
  is_Some (params w !! "Passive") →
  let s := versioned H (params w) in
  (register_fx H s).1 = None ∨ (register_fx H s).1 = Some "" →
  manager_init_tail H w =
  mkOutcome
    (Raise (Exception ("Registration failed for device "
                       +:+ fmt_bytes ((register_fx H s).2 !! "HardwareSerial"))))
    (mkWorld (register_fx H s).2 (environ w) (files w) (managed_processes w))
    (version_events H).
Proof.
  intros [pv Hpv]. cbv zeta. intros Hreg.
  unfold manager_init_tail, params_get, register, params_put_bool, params_put,
    version_events.
  rewrite bind_bind, get_world_bind, ret_bind.
  change (Store.get (params w) "Passive") with (params w !! "Passive"). rewrite Hpv.
  destruct (mkdir_shm H); run;
    cbn [with_params params environ files managed_processes];
    fold (versioned H (params w));
    destruct Hreg as [-> | ->]; cbn [Py.truthy]; run;
    unfold Store.get; cbn [with_params params environ files managed_processes];
    reflexivity.
Qed.

End Registration.

(** X12. If registration gives no identity (nothing, or an empty
    string), [manager_init] raises [Registration failed for device]
    followed by the stored [HardwareSerial]; [main] raises the same
    without entering the loop, and [os.environ] is as before: no
    [DONGLE_ID] was exported. *)
Theorem registration_failure_is_fatal (H : Host) (ticks : list Tick) (w : World) :
  let oh := manager_init_head H w in
  let s := versioned H (params (final oh)) in
  let failure :=
    Exception ("Registration failed for device "
               +:+ fmt_bytes ((register_fx H s).2 !! "HardwareSerial")) in
  res oh = Ok tt →
  is_Some (params (final oh) !! "Passive") →
  (register_fx H s).1 = None ∨ (register_fx H s).1 = Some "" →
  res (manager_init H w) = Raise failure
  ∧ res (main H ticks w) = Raise failure
  ∧ Forall (λ e, ¬ loop_entered e) (events (main H ticks w))
  ∧ environ (final (main H ticks w)) = environ w.
Proof.
  cbv zeta. intros Hhead Hpassive Hreg.
  pose proof (manager_init_tail_unregistered H _ Hpassive Hreg) as Htail.
  cbv zeta in Htail.
  assert (res (manager_init H w) = Raise
            (Exception ("Registration failed for device "
               +:+ fmt_bytes ((register_fx H (versioned H (params (final (manager_init_head H w))))).2
                              !! "HardwareSerial")))
          ∧ environ (final (manager_init H w)) = environ w) as [Hinit Henv].
  { unfold manager_init. rewrite bind_run, Hhead, Htail. cbn [prepend res final environ].
    split; [done | apply manager_init_head_keeps_environ]. }
  split; [done|].
  rewrite (main_init_raise H ticks w _ Hinit). cbn [res final events].
  split; [done|]. split; [|done].
  eapply Forall_impl; [apply manager_init_events|].
  intros e He. destruct e; try (by intros []); destruct He.
Qed.

Lemma registration_failure_is_fatal_witness :
  res (main Scenario.unregistered_host Scenario.road_trip Scenario.world)
  = Raise (Exception "Registration failed for device None").
Proof.
  apply (registration_failure_is_fatal Scenario.unregistered_host Scenario.road_trip
           Scenario.world).
  - vm_compute. reflexivity.
  - vm_compute. eauto.
  - left. reflexivity.
Defined.

Section Registered.

Context (H : Host).

(** [manager_init_tail] when registration gives an identity. *)
Lemma manager_init_tail_registered (w : World) (d : string) :
  is_Some (params w !! "Passive") →
  let s := versioned H (params w) in
  (register_fx H s).1 = Some d →
  d ≠ "" →
  let o := manager_init_tail H w in
  res o = Ok tt
  ∧ params (final o) = (register_fx H s).2
  ∧ environ (final o) =
      (if is_dirty H then <["DONGLE_ID" := d]> (environ w)
       else <["CLEAN" := "1"]> (<["DONGLE_ID" := d]> (environ w)))
  ∧ files (final o) = delete (path_join (CRASHES_DIR H) "error.txt") (files w)
  ∧ managed_processes (final o) = managed_processes w.
Proof.
  intros [pv Hpv]. cbv zeta. intros Hreg Hd.
  assert (Py.truthy d = true) as Htruthy by (by destruct d).
  unfold manager_init_tail, params_get, register, params_put_bool, params_put,
    setenv, path_exists, os_remove.
  rewrite bind_bind, get_world_bind, ret_bind.
  change (Store.get (params w) "Passive") with (params w !! "Passive"). rewrite Hpv.
  destruct (mkdir_shm H); run;
    cbn [with_params params environ files managed_processes];
    fold (versioned H (params w));
    rewrite Hreg, Htruthy; run;
    destruct (is_dirty H); cbn [negb]; run;
    cbn [with_params with_environ with_files params environ files managed_processes];
    (destruct (bool_decide (is_Some (files w !! path_join (CRASHES_DIR H) "error.txt")))
       eqn:Hfile; run;
     cbn [with_params with_environ with_files params environ files managed_processes];
     [repeat split; reflexivity|]);
    repeat split; try reflexivity;
    symmetry; apply delete_id;
    apply bool_decide_eq_false_1 in Hfile;
    by apply eq_None_not_Some.
Qed.

End Registered.

(** X13. If registration gives an identity [d], [manager_init] returns;
    the store is the one registration left after the version keys were
    written; [os.environ] holds [DONGLE_ID] set to [d], and [CLEAN] set to
    1 exactly when the tree is not dirty (otherwise [CLEAN] is as it
    was); the stale [error.txt] of the crash directory is gone; and no
    managed process was touched. *)
Theorem manager_init_registered (H : Host) (w : World) (d : string) :
  let oh := manager_init_head H w in
  let s := versioned H (params (final oh)) in
  res oh = Ok tt →
  is_Some (params (final oh) !! "Passive") →
  (register_fx H s).1 = Some d →
  d ≠ "" →
  let o := manager_init H w in
  res o = Ok tt
  ∧ params (final o) = (register_fx H s).2
  ∧ environ (final o) !! "DONGLE_ID" = Some d
  ∧ environ (final o) !! "CLEAN" =
      (if is_dirty H then environ w !! "CLEAN" else Some "1")
  ∧ files (final o) !! path_join (CRASHES_DIR H) "error.txt" = None
  ∧ managed_processes (final o) = managed_processes w.
Proof.
  cbv zeta. intros Hhead Hpassive Hreg Hd.
  destruct (manager_init_tail_registered H _ d Hpassive Hreg Hd)
    as (Hres & Hparams & Henv & Hfiles & _).
  pose proof (manager_init_head_keeps_environ H w) as Hhenv.
  pose proof (manager_init_keeps_procs H w) as Hprocs.
  unfold manager_init in *. rewrite bind_run, Hhead in *. cbn [prepend res final] in *.
  rewrite Hparams, Henv, Hfiles, Hhenv.
  repeat split; try done.
  - destruct (is_dirty H); [apply lookup_insert_eq|].
    rewrite lookup_insert_ne by done. apply lookup_insert_eq.
  - destruct (is_dirty H); [by rewrite lookup_insert_ne | apply lookup_insert_eq].
  - apply lookup_delete_eq.
Qed.

Lemma manager_init_registered_witness :
  environ (final (manager_init Scenario.host Scenario.world)) !! "DONGLE_ID"
  = Some "0123456789abcdef".
Proof.
  apply (manager_init_registered Scenario.host Scenario.world "0123456789abcdef").
  - vm_compute. reflexivity.
  - vm_compute. eauto.
  - reflexivity.
  - discriminate.
Defined.

(** ** The passive override *)

Section Passive.

Context (H : Host).

(** Up to the passive override [manager_init] cannot fail, and it
    leaves [os.environ] alone. *)
Lemma manager_init_head_run (w : World) :
  ∃ ev w1, environ w1 = environ w
           ∧ manager_init_head H w = prepend ev (passive_override w1).
Proof.
  unfold manager_init_head, params_clear_all, params_get_bool, params_put_bool,
    params_put.
  run. destruct (is_release_branch H); run;
    (match goal with |- context [Store.get_bool ?s ?k] =>
       destruct (Store.get_bool s k) end); run;
    rewrite bind_run, set_unset_params_run; cbn [prepend res final events];
    rewrite prepend_prepend; eexists _, _; (split; [|reflexivity]); reflexivity.
Qed.

Lemma passive_override_run (w : World) (v : string) :
  environ w !! "PASSIVE" = Some v →
  passive_override w =
  match Py.int v with
  | Some n =>
      mkOutcome (Ok tt)
        (with_params (Store.put "Passive" (Store.bool_str (Py.bool_of_int n))) w)
        [ParamsPut "Passive" (Store.bool_str (Py.bool_of_int n))]
  | None =>
      mkOutcome (Raise (ValueError ("invalid literal for int() with base 10: " +:+ v)))
        w []
  end.
Proof.
  intros Henv. unfold passive_override, getenv, params_put_bool, params_put.
  rewrite bind_bind, get_world_bind, ret_bind, Henv.
  destruct (Py.int v); [by rewrite modify_bind | done].
Qed.

End Passive.

(** X14. With [PASSIVE] in the environment the passive check of
    [manager_init] cannot fail: either the value is not an integer and
    [manager_init] raises [ValueError], or [Passive] is stored as 1 for a
    non-zero value and 0 for zero, and [manager_init] does not raise
    [Passive must be set to continue]. *)
Theorem passive_env_decides (H : Host) (w : World) (v : string) :
  environ w !! "PASSIVE" = Some v →
  match Py.int v with
  | Some n =>
      res (manager_init_head H w) = Ok tt
      ∧ params (final (manager_init_head H w)) !! "Passive"
        = Some (if n =? 0 then "0" else "1")
      ∧ res (manager_init H w) ≠ Raise (Exception "Passive must be set to continue")
  | None => ∃ msg, res (manager_init H w) = Raise (ValueError msg)
  end.
Proof.
  intros Henv.
  destruct (manager_init_head_run H w) as (ev & w1 & Henv1 & Hhead).
  rewrite <- Henv1 in Henv.
  pose proof (passive_override_run w1 v Henv) as Hover.
  destruct (Py.int v) as [n|].
  - assert (res (manager_init_head H w) = Ok tt
            ∧ params (final (manager_init_head H w)) !! "Passive"
              = Some (if n =? 0 then "0" else "1")) as [Hres Hpassive].
    { rewrite Hhead, Hover. cbn [prepend res final with_params params].
      split; [done|]. unfold Store.put, Py.bool_of_int. rewrite lookup_insert_eq.
      by destruct (n =? 0). }
    split; [done|]. split; [done|].
    unfold manager_init. rewrite bind_run, Hres. cbn [prepend res].
    set (w2 := final (manager_init_head H w)) in *.
    assert (is_Some (params w2 !! "Passive")) as Hsome by (by eexists).
    destruct (register_fx H (versioned H (params w2))).1 as [d|] eqn:Hreg.
    + destruct (decide (d = "")) as [-> | Hd].
      * rewrite (manager_init_tail_unregistered H w2 Hsome) by (by right).
        cbn [res]. intros Heq. injection Heq as Heq. discriminate.
      * destruct (manager_init_tail_registered H w2 d Hsome Hreg Hd) as [-> _].
        discriminate.
    + rewrite (manager_init_tail_unregistered H w2 Hsome) by (by left).
      cbn [res]. intros Heq. injection Heq as Heq. discriminate.
  - eexists. unfold manager_init. rewrite bind_run, Hhead, Hover.
    cbn [prepend res]. reflexivity.
Qed.

Lemma passive_env_decides_witness :
  params (final (manager_init_head Scenario.host Scenario.passive_world)) !! "Passive"
  = Some "1".
Proof.
  pose proof (passive_env_decides Scenario.host Scenario.passive_world "1") as Hp.
  cbv beta iota zeta delta [Py.int Py.strip Py.lstrip Py.rstrip Py.is_space Py.digits
                             Py.is_digit Py.digit_val] in Hp.
  apply Hp. vm_compute. reflexivity.
Defined.

(** ** The script *)

Lemma index_of_lookup (key : string) (l : list ManagerProcess) (i : nat) :
  index_of key l = Some i → ∃ p, l !! i = Some p ∧ name p = key.
Proof.
  revert i. induction l as [|q l IH]; intros i; cbn [index_of]; [discriminate|].
  case_bool_decide as Hq.
  - intros [= <-]. by exists q.
  - destruct (index_of key l) as [j|]; [|discriminate].
    intros [= <-]. destruct (IH j eq_refl) as (p & Hp & Hn). by exists p.
Qed.

Section Script.

Context (H : Host).

(** The best-effort stop of the ui process in the failure handler: one
    blocking stop when there is a ui process, nothing when there is
    none; it never raises. *)
Lemma stop_ui_run (w : World) :
  ∃ stop w',
    try_except (ui ← getitem "ui"; proc_stop true ui) (λ _, mret tt) w
    = mkOutcome (Ok tt) w' stop
    ∧ (index_of "ui" (managed_processes w) = None → stop = [] ∧ w' = w)
    ∧ (is_Some (index_of "ui" (managed_processes w)) → stop = [ProcStop "ui" true]).
Proof.
  destruct (index_of "ui" (managed_processes w)) as [i|] eqn:Hi.
  - destruct (index_of_lookup _ _ _ Hi) as (p & Hp & Hn).
    assert ((ui ← getitem "ui"; proc_stop true ui) w
            = mkOutcome (Ok tt) (with_procs (alter (stop_state true) i) w)
                [ProcStop "ui" true]) as Hbody.
    { unfold getitem. rewrite bind_bind, get_world_bind, Hi, ret_bind.
      unfold proc_stop. by rewrite get_world_bind, Hp, modify_bind, Hn. }
    unfold try_except. rewrite Hbody. cbn [res].
    eexists _, _. split; [reflexivity|]. split; [discriminate | done].
  - assert ((ui ← getitem "ui"; proc_stop true ui) w
            = mkOutcome (Raise (KeyError "ui")) w []) as Hbody.
    { unfold getitem. rewrite bind_bind, get_world_bind, Hi. reflexivity. }
    unfold try_except. rewrite Hbody. cbn [res is_Exception final events mret M_ret app].
    eexists _, _. split; [reflexivity|]. split; [done | by intros [? ?]].
Qed.

End Script.

(** X15. When [main] raises an [Exception], the script logs it, makes
    one attempt to stop the ui process (none when there is no ui
    process: the [KeyError] is swallowed), shows the error window, and
    then raises the same exception again. *)
Theorem startup_failure_is_shown (H : Host) (ticks : list Tick) (w : World) (e : PyExc) :
  res (main H ticks w) = Raise e →
  is_Exception e = true →
  let om := main H ticks w in
  let o := script H ticks w in
  res o = Raise e
  ∧ ∃ stop,
      events o = [UnblockStdout] ++ events om ++ failure_shown stop
      ∧ (index_of "ui" (managed_processes (final om)) = None → stop = [])
      ∧ (is_Some (index_of "ui" (managed_processes (final om))) →
         stop = [ProcStop "ui" true]).
Proof.
  intros Hres Hexc. cbv zeta.
  destruct (stop_ui_run (final (main H ticks w))) as (stop & w' & Hstop & Hnone & Hsome).
  unfold script. rewrite emit_bind.
  match goal with |- context [(try_except (main H ticks) ?h ≫= _) w] =>
    assert (try_except (main H ticks) h w
            = mkOutcome (Raise e) w' (events (main H ticks w) ++ failure_shown stop))
      as Htry
  end.
  { unfold try_except at 1. rewrite Hres, Hexc.
    rewrite !emit_bind, bind_run, Hstop. cbn [prepend res final events].
    rewrite emit_bind. cbn [raise prepend res final events].
    unfold failure_shown. reflexivity. }
  rewrite bind_run, Htry. cbn [prepend res final events].
  split; [reflexivity|]. exists stop. split; [reflexivity|].
  split; [intros Hn; by destruct (Hnone Hn) | exact Hsome].
Qed.

Lemma startup_failure_is_shown_witness :
  res (script Scenario.host Scenario.road_trip Scenario.fresh_world)
  = Raise (Exception "Passive must be set to continue").
Proof.
  apply (startup_failure_is_shown Scenario.host Scenario.road_trip Scenario.fresh_world).
  - vm_compute. reflexivity.
  - reflexivity.
Defined.

(** X16. When [main] returns, the script ends with [SystemExit(0)]; when
    [main] lets through an exception that is not an [Exception] (the
    [SystemExit] of the SIGTERM handler), the script lets it through as
    well.  In both cases the script adds no call of its own after those
    of [main]: no error window is shown. *)
Theorem script_exit (H : Host) (ticks : list Tick) (w : World) :
  let om := main H ticks w in
  let o := script H ticks w in
  (res om = Ok tt →
   res o = Raise (SystemExit 0) ∧ events o = UnblockStdout :: events om)
  ∧ (∀ e, res om = Raise e → is_Exception e = false →
     res o = Raise e ∧ events o = UnblockStdout :: events om).
Proof.
  cbv zeta.
  assert (∀ h, (∀ e, res (main H ticks w) = Raise e → is_Exception e = false) →
               try_except (main H ticks) h w = main H ticks w) as Htry.
  { intros h Hno. unfold try_except.
    destruct (res (main H ticks w)) as [a|e|] eqn:Hres; try done.
    by rewrite (Hno e eq_refl). }
  split.
  - intros Hres. unfold script. rewrite emit_bind, bind_run.
    rewrite Htry by (intros e He; congruence).
    rewrite Hres. cbn [raise prepend res final events app]. by rewrite app_nil_r.
  - intros e Hres Hexc. unfold script. rewrite emit_bind, bind_run.
    rewrite Htry by (intros e' He; congruence).
    rewrite Hres. split; reflexivity.
Qed.

Lemma script_exit_witness :
  res (script Scenario.host Scenario.road_trip Scenario.prepare_world)
  = Raise (SystemExit 0).
Proof.
  destruct (script_exit Scenario.host Scenario.road_trip Scenario.prepare_world)
    as [Hreturn _].
  apply Hreturn. vm_compute. reflexivity.
Defined.

(** ** The start of the run *)

Lemma prepare_alter_start (i : nat) (l : list ManagerProcess) :
  map (λ p, ProcPrepare (name p)) (alter start_state i l)
  = map (λ p, ProcPrepare (name p)) l.
Proof.
  revert i. induction l as [|p l IH]; intros [|i]; cbn; try done.
  by rewrite IH.
Qed.

Section Start.

Context (H : Host).

(** [main] without [PREPAREONLY], after a successful [manager_init]. *)
Lemma main_not_prepare_only (ticks : list Tick) (w : World) :
  environ w !! "PREPAREONLY" = None →
  res (manager_init H w) = Ok tt →
  ∃ removal w1,
    main H ticks w =
    prepend (events (manager_init H w) ++ removal ++ [ModelSwitcher])
      (((ui ← getitem "ui"; proc_start ui);; manager_prepare;; main_run H ticks) w1)
    ∧ params w1 = params (final (manager_init H w))
    ∧ environ w1 = environ (final (manager_init H w))
    ∧ managed_processes w1 = managed_processes w
    ∧ (removal = [] ∨ removal = [Remove "/data/openpilot/prebuilt"]).
Proof.
  intros Henv Hinit. pose proof (manager_init_keeps_procs H w) as Hprocs.
  unfold main, getenv. rewrite bind_bind, get_world_bind, ret_bind, Henv.
  rewrite bool_decide_eq_false_2 by (by intros [? ?]). cbn [negb].
  rewrite bind_run, Hinit.
  unfold path_exists. rewrite bind_bind, get_world_bind, ret_bind.
  destruct (bool_decide (is_Some (files (final (manager_init H w))
                                    !! "/data/openpilot/prebuilt"))).
  - unfold os_remove. rewrite bind_bind, modify_bind, !emit_bind.
    rewrite !prepend_prepend.
    eexists [Remove "/data/openpilot/prebuilt"], _.
    split; [by rewrite <- !app_assoc|]. by repeat split; [..|right].
  - rewrite ret_bind, emit_bind, prepend_prepend.
    eexists [], _. split; [reflexivity|]. by repeat split; [..|left].
Qed.

End Start.

(** X17. Without [PREPAREONLY], when no managed process is called ui,
    the early start of the ui fails: [main] raises [KeyError] for ui after
    [manager_init] and the model switcher, before it prepares any process
    and without entering the loop. *)
Theorem missing_ui_is_fatal (H : Host) (ticks : list Tick) (w : World) :
  environ w !! "PREPAREONLY" = None →
  res (manager_init H w) = Ok tt →
  index_of "ui" (managed_processes w) = None →
  res (main H ticks w) = Raise (KeyError "ui")
  ∧ Forall (λ e, prepare_event e ∧ ¬ loop_entered e ∧ ∀ p, e ≠ ProcPrepare p)
      (events (main H ticks w)).
Proof.
  intros Henv Hinit Hui.
  destruct (main_not_prepare_only H ticks w Henv Hinit)
    as (removal & w1 & -> & _ & _ & Hprocs & Hrem).
  assert (((ui ← getitem "ui"; proc_start ui);; manager_prepare;; main_run H ticks) w1
          = mkOutcome (Raise (KeyError "ui")) w1 []) as ->.
  { assert ((ui ← getitem "ui"; proc_start ui) w1
            = mkOutcome (Raise (KeyError "ui")) w1 []) as Hget.
    { unfold getitem. rewrite bind_bind, get_world_bind, Hprocs, Hui. reflexivity. }
    by rewrite bind_run, Hget. }
  cbn [prepend res events]. split; [done|]. rewrite app_nil_r.
  assert (∀ e, prepare_event e → (∀ p, e ≠ ProcPrepare p) →
            prepare_event e ∧ ¬ loop_entered e ∧ ∀ p, e ≠ ProcPrepare p) as Hev.
  { intros e He Hp. repeat split; try done.
    destruct e; try (by intros []); destruct He. }
  assert (Forall (λ e, prepare_event e ∧ ∀ p, e ≠ ProcPrepare p)
            (events (manager_init H w))) as Hie.
  { unfold manager_init, manager_init_head, manager_init_tail, params_clear_all,
      params_get_bool, set_unset_params, params_get, passive_override, getenv,
      register, setenv, path_exists, os_remove, params_put_bool, params_put.
    match goal with |- Forall ?P (events (?m w)) =>
      assert (emits_only P m) as Hm; [|exact (Hm w)] end.
    emits; by split. }
  apply Forall_app. split.
  { eapply Forall_impl; [exact Hie|]. intros e [? ?]. by apply Hev. }
  apply Forall_app. split.
  { destruct Hrem as [-> | ->]; repeat constructor; by apply Hev. }
  repeat constructor; by apply Hev.
Qed.

Lemma missing_ui_is_fatal_witness :
  res (main Scenario.host Scenario.road_trip Scenario.headless_world)
  = Raise (KeyError "ui").
Proof.
  apply (missing_ui_is_fatal Scenario.host Scenario.road_trip Scenario.headless_world).
  - reflexivity.
  - vm_compute. reflexivity.
  - reflexivity.
Defined.

Section Started.

Context (H : Host).

(** The start of the ui, the preparation and the run, when there is a
    ui process. *)
Lemma start_prepare_run (ticks : list Tick) (w1 : World) (i : nat) (p : ManagerProcess) :
  index_of "ui" (managed_processes w1) = Some i →
  managed_processes w1 !! i = Some p →
  name p = "ui" →
  ((ui ← getitem "ui"; proc_start ui);; manager_prepare;; main_run H ticks) w1
  = prepend ([ProcStart "ui"]
             ++ map (λ p, ProcPrepare (name p)) (managed_processes w1))
      (main_run H ticks (with_procs (alter start_state i) w1)).
Proof.
  intros Hui Hp Hn.
  assert ((ui ← getitem "ui"; proc_start ui) w1
          = mkOutcome (Ok tt) (with_procs (alter start_state i) w1) [ProcStart "ui"])
    as Hstart.
  { unfold getitem. rewrite bind_bind, get_world_bind, Hui, ret_bind.
    unfold proc_start. rewrite get_world_bind, Hp, modify_bind, Hn. reflexivity. }
  rewrite bind_run, Hstart. cbn [res final events].
  generalize (main_run H ticks). intros k.
  rewrite bind_run, manager_prepare_run. cbn [res final events].
  cbn [with_procs managed_processes].
  rewrite prepare_alter_start. apply prepend_prepend.
Qed.

End Started.

(** X18. Without [PREPAREONLY], when there is a ui process, [main]
    starts it right after the model switcher, then prepares every managed
    process in enumeration order, and only then runs the part that
    installs the SIGTERM handler and enters the loop; that part finds the
    ui process alive and the store as [manager_init] left it, and its
    result is the result of [main]. *)
Theorem ui_starts_before_prepare (H : Host) (ticks : list Tick) (w : World) (i : nat) :
  environ w !! "PREPAREONLY" = None →
  res (manager_init H w) = Ok tt →
  index_of "ui" (managed_processes w) = Some i →
  ∃ removal w2,
    events (main H ticks w) =
      events (manager_init H w) ++ removal
      ++ [ModelSwitcher; ProcStart "ui"]
      ++ map (λ p, ProcPrepare (name p)) (managed_processes w)
      ++ events (main_run H ticks w2)
    ∧ res (main H ticks w) = res (main_run H ticks w2)
    ∧ managed_processes w2 = alter start_state i (managed_processes w)
    ∧ (∃ p, managed_processes w2 !! i = Some p ∧ name p = "ui" ∧ is_alive p = true)
    ∧ params w2 = params (final (manager_init H w))
    ∧ (removal = [] ∨ removal = [Remove "/data/openpilot/prebuilt"]).
Proof.
  intros Henv Hinit Hui.
  destruct (main_not_prepare_only H ticks w Henv Hinit)
    as (removal & w1 & Hmain & Hparams & _ & Hprocs & Hrem).
  destruct (index_of_lookup _ _ _ Hui) as (p & Hp & Hn).
  rewrite <- Hprocs in Hui, Hp.
  pose proof (start_prepare_run H ticks w1 i p Hui Hp Hn) as Hinner.
  exists removal, (with_procs (alter start_state i) w1).
  assert (managed_processes (with_procs (alter start_state i) w1)
          = alter start_state i (managed_processes w)) as Hp2.
  { unfold with_procs, managed_processes at 1. by rewrite Hprocs. }
  assert (params (with_procs (alter start_state i) w1)
          = params (final (manager_init H w))) as Hs2 by exact Hparams.
  rewrite Hmain, Hinner, Hprocs. clear Hmain Hinner.
  generalize dependent (with_procs (alter start_state i) w1). intros w2 Hp2 Hs2.
  generalize (main_run H ticks w2). intros o.
  rewrite prepend_prepend. cbn [prepend res events].
  split; [by rewrite <- !app_assoc|]. split; [reflexivity|]. split; [exact Hp2|].
  split; [|split; [exact Hs2 | exact Hrem]].
  exists (start_state p). rewrite Hp2, list_lookup_alter_eq.
  rewrite Hprocs in Hp. rewrite Hp. by repeat split.
Qed.

Lemma ui_starts_before_prepare_witness :
  ∃ removal w2,
    events (main Scenario.host Scenario.road_trip Scenario.world) =
      events (manager_init Scenario.host Scenario.world) ++ removal
      ++ [ModelSwitcher; ProcStart "ui"]
      ++ map (λ p, ProcPrepare (name p)) (managed_processes Scenario.world)
      ++ events (main_run Scenario.host Scenario.road_trip w2)
    ∧ res (main Scenario.host Scenario.road_trip Scenario.world)
      = res (main_run Scenario.host Scenario.road_trip w2)
    ∧ managed_processes w2 = alter start_state 0%nat (managed_processes Scenario.world)
    ∧ (∃ p, managed_processes w2 !! 0%nat = Some p ∧ name p = "ui" ∧ is_alive p = true)
    ∧ params w2 = params (final (manager_init Scenario.host Scenario.world))
    ∧ (removal = [] ∨ removal = [Remove "/data/openpilot/prebuilt"]).
Proof.
  apply (ui_starts_before_prepare Scenario.host Scenario.road_trip Scenario.world 0%nat).
  - reflexivity.
  - vm_compute. reflexivity.
  - reflexivity.
Defined.

(** X19. [manager_prepare] calls [prepare] once for every managed
    process, in enumeration order, and nothing else; it returns and
    changes nothing, for every process table, the empty one included. *)
Theorem manager_prepare_each_once (w : World) :
  let o := manager_prepare w in
  res o = Ok tt ∧ final o = w
  ∧ events o = map (λ p, ProcPrepare (name p)) (managed_processes w).
Proof. cbv zeta. by rewrite manager_prepare_run. Qed.

(** ** The test-environment guard *)

Lemma prefix_spec (a b : string) :
  String.prefix a b = true ↔ ∃ post, b = a +:+ post.
Proof.
  revert a. induction b as [|d b IH]; intros [|c a]; cbn [String.prefix].
  - split; [intros _; by exists "" | done].
  - split; [done | intros [post Hp]; discriminate].
  - split; [intros _; by exists (String d b) | done].
  - destruct (ascii_dec c d) as [-> | Hne].
    + rewrite IH. split; intros [post Hp]; exists post.
      * by rewrite Hp.
      * by injection Hp.
    + split; [done|]. intros [post Hp]. injection Hp as Hcd _. congruence.
Qed.

Lemma contains_spec (needle hay : string) :
  Py.contains needle hay = true ↔ ∃ pre post, hay = pre +:+ needle +:+ post.
Proof.
  induction hay as [|c hay IH]; cbn [Py.contains].
  - rewrite orb_false_r, prefix_spec. split.
    + intros [post Hp]. by exists "", post.
    + intros (pre & post & Hp). destruct pre; [by exists post|discriminate].
  - rewrite orb_true_iff, prefix_spec, IH. split.
    + intros [[post Hp] | (pre & post & Hp)].
      * by exists "", post.
      * exists (String c pre), post. cbn. by rewrite Hp.
    + intros (pre & post & Hp). destruct pre as [|d pre].
      * left. by exists post.
      * right. cbn in Hp. injection Hp as -> Hp. by exists pre, post.
Qed.

(** X20. [is_running_on_wsl2] never raises and changes nothing; it
    answers [True] exactly when [/proc/version] exists and its contents
    hold WSL2 or Ubuntu somewhere; a missing file gives [False]. *)
Theorem wsl2_detection (w : World) :
  ∃ b, is_running_on_wsl2 w = mkOutcome (Ok b) w []
       ∧ (b = true ↔
          ∃ contents pre post,
            files w !! "/proc/version" = Some contents
            ∧ (contents = pre +:+ "WSL2" +:+ post
               ∨ contents = pre +:+ "Ubuntu" +:+ post)).
Proof.
  unfold is_running_on_wsl2. rewrite get_world_bind.
  destruct (files w !! "/proc/version") as [c|].
  - eexists. split; [reflexivity|].
    rewrite orb_true_iff, !contains_spec. split.
    + intros [(pre & post & Hp) | (pre & post & Hp)]; exists c, pre, post; auto.
    + intros (c' & pre & post & [= <-] & [Hp | Hp]); [left | right]; by exists pre, post.
  - exists false. split; [reflexivity|]. split; [done|].
    intros (c & _ & _ & Hc & _). discriminate.
Qed.

(** ** What the start-up clears *)

Section Cleared.

Context (H : Host) (k : string).

Let gone (w : World) : Prop := params w !! k = None.

Lemma after_establishes {A C} (m : M A) (f : A → M C) :
  establishes gone m → (∀ a, stable gone (f a)) → ∀ w, gone (final ((m ≫= f) w)).
Proof.
  intros Hm Hf w. rewrite bind_run. destruct (Hm w) as [[a Ha] Hg].
  rewrite Ha. cbn [prepend final]. by apply Hf.
Qed.

Lemma after_returns {A C} (m : M A) (f : A → M C) :
  returns m → (∀ a w, gone (final (f a w))) → ∀ w, gone (final ((m ≫= f) w)).
Proof.
  intros Hm Hf w. rewrite bind_run. destruct (Hm w) as [a Ha].
  rewrite Ha. cbn [prepend final]. apply Hf.
Qed.

Lemma clear_all_returns (t : ParamKeyType) : returns (params_clear_all H t).
Proof. intros w. by exists tt. Qed.

Lemma clear_all_establishes (t : ParamKeyType) :
  key_type H k t = true → establishes gone (params_clear_all H t).
Proof.
  intros Ht w. split; [by exists tt|].
  unfold gone, params_clear_all. rewrite modify_bind.
  cbn [emit final with_params params]. unfold Store.clear_all.
  apply map_lookup_filter_None. right. intros v _. cbn. by rewrite Ht.
Qed.

Lemma gone_clear_all (t : ParamKeyType) : stable gone (params_clear_all H t).
Proof.
  unfold params_clear_all. stable_all.
  unfold gone, with_params, Store.clear_all in *. cbn [params].
  apply map_lookup_filter_None. by left.
Qed.

Lemma gone_put (k' v' : string) : k ≠ k' → stable gone (params_put k' v').
Proof.
  intros Hne. unfold params_put. stable_all.
  unfold gone, with_params, Store.put in *. cbn [params]. by rewrite lookup_insert_ne.
Qed.

Lemma first_binding_None (table : list (string * string)) :
  k ∉ map fst table → first_binding k table = None.
Proof.
  induction table as [|kv table IH]; cbn [map first_binding]; [done|].
  rewrite not_elem_of_cons. intros [Hne Hnot].
  rewrite bool_decide_eq_false_2 by done. by apply IH.
Qed.

Lemma gone_set_unset_params (table : list (string * string)) :
  k ∉ map fst table → stable gone (set_unset_params table).
Proof.
  intros Hk w Hw. rewrite set_unset_params_run. unfold gone in *.
  cbn [final with_params params]. rewrite seed_lookup, Hw. by apply first_binding_None.
Qed.

(** The part of [manager_init_head] after the clears. *)
Lemma gone_after_clears :
  k ∉ map fst (default_params H) → k ∉ init_written_keys →
  stable gone
    (lock ← params_get_bool "RecordFrontLock";
     (if (lock : bool) then params_put_bool "RecordFront" true else mret tt);;
     set_unset_params (default_params H);;
     passive_override).
Proof.
  intros Htable Hk. unfold init_written_keys in Hk.
  rewrite !not_elem_of_cons in Hk. destruct Hk as (? & ? & _).
  unfold params_get_bool. apply stable_bind; [stable_all; done | intros lock].
  apply stable_bind; [| intros _].
  { destruct lock; [by apply gone_put | apply stable_ret]. }
  apply stable_bind; [by apply gone_set_unset_params | intros _].
  unfold passive_override, getenv, params_put_bool.
  stable_all; try done. by apply gone_put.
Qed.

Lemma gone_release_clear :
  stable gone (if is_release_branch H then params_clear_all H DEVELOPMENT_ONLY
               else mret tt).
Proof. destruct (is_release_branch H); [apply gone_clear_all | apply stable_ret]. Qed.

Lemma gone_init_tail :
  k ∉ init_written_keys →
  (∀ s, s !! k = None → (register_fx H s).2 !! k = None) →
  stable gone (manager_init_tail H).
Proof.
  intros Hk Hreg. unfold init_written_keys in Hk.
  rewrite !not_elem_of_cons in Hk.
  destruct Hk as (? & ? & ? & ? & ? & ? & ? & ? & ? & ? & _).
  unfold manager_init_tail, params_get, register, setenv, path_exists, os_remove,
    params_put_bool.
  repeat (apply stable_bind; [| intros ?]);
    try (by apply gone_put); stable_all; try done.
  unfold gone, with_params in *. cbn [params]. by apply Hreg.
Qed.

Lemma gone_init_head (t : ParamKeyType) :
  t ≠ DEVELOPMENT_ONLY →
  key_type H k t = true →
  k ∉ map fst (default_params H) → k ∉ init_written_keys →
  ∀ w, gone (final (manager_init_head H w)).
Proof.
  intros Ht Hkt Htable Hk. unfold manager_init_head.
  apply after_returns; [by intros w; exists tt | intros _].
  apply after_returns; [by intros w; exists tt | intros _].
  assert (∀ {A} (m : M A), stable gone m →
            stable gone (m ≫= λ _,
              lock ← params_get_bool "RecordFrontLock";
              (if (lock : bool) then params_put_bool "RecordFront" true else mret tt);;
              set_unset_params (default_params H);;
              passive_override)) as Hrest.
  { intros A m Hm. apply stable_bind; [exact Hm | intros _]. by apply gone_after_clears. }
  destruct t; try done.
  - apply after_establishes; [by apply clear_all_establishes | intros _].
    apply stable_bind; [apply gone_clear_all | intros _].
    apply stable_bind; [apply gone_clear_all | intros _].
    apply Hrest, gone_release_clear.
  - apply after_returns; [apply clear_all_returns | intros _].
    apply after_establishes; [by apply clear_all_establishes | intros _].
    apply stable_bind; [apply gone_clear_all | intros _].
    apply Hrest, gone_release_clear.
  - apply after_returns; [apply clear_all_returns | intros _].
    apply after_returns; [apply clear_all_returns | intros _].
    apply after_establishes; [by apply clear_all_establishes | intros _].
    apply Hrest, gone_release_clear.
Qed.

End Cleared.

(** X21. What is flagged for clearing at manager start, or at either
    transition, does not survive [manager_init]: a key with such a flag,
    outside the default table and the keys [manager_init] writes, and not
    created by registration, is unset when [manager_init] ends, with
    whatever result.  A request flag left over from the last run is
    dropped this way. *)
Theorem stale_keys_cleared (H : Host) (w : World) (k : string) (t : ParamKeyType) :
  t ≠ DEVELOPMENT_ONLY →
  key_type H k t = true →
  k ∉ map fst (default_params H) →
  k ∉ init_written_keys →
  (∀ s, s !! k = None → (register_fx H s).2 !! k = None) →
  params (final (manager_init H w)) !! k = None.
Proof.
  intros Ht Hkt Htable Hk Hreg. unfold manager_init. rewrite bind_run.
  pose proof (gone_init_head H k t Ht Hkt Htable Hk w) as Hhead.
  destruct (res (manager_init_head H w)); cbn [prepend final]; try done.
  by apply (gone_init_tail H k Hk Hreg).
Qed.

Lemma stale_keys_cleared_witness :
  params (final (manager_init Scenario.host Scenario.stale_world)) !! "DoShutdown" = None.
Proof.
  apply (stale_keys_cleared Scenario.host Scenario.stale_world "DoShutdown"
           CLEAR_ON_MANAGER_START).
  - discriminate.
  - reflexivity.
  - apply (bool_decide_unpack _). vm_compute. exact I.
  - apply (bool_decide_unpack _). vm_compute. exact I.
  - intros s Hs. cbn [Scenario.host register_fx snd]. by rewrite lookup_insert_ne.
Defined.

(** ** The lock on the front recording *)

Section Lock.

Context (H : Host).

(** [manager_init_head] is its clears, and then the rest in the cleared
    store. *)
Lemma manager_init_head_cleared (w : World) :
  ∃ ev,
    manager_init_head H w =
    prepend ev
      ((lock ← params_get_bool "RecordFrontLock";
        (if (lock : bool) then params_put_bool "RecordFront" true else mret tt);;
        set_unset_params (default_params H);;
        passive_override)
         (with_params (init_cleared H) w)).
Proof.
  unfold manager_init_head, params_clear_all, init_cleared.
  rewrite !emit_bind.
  do 3 rewrite bind_bind, modify_bind, emit_bind.
  rewrite !prepend_prepend.
  destruct (is_release_branch H).
  - rewrite bind_bind, modify_bind, emit_bind, prepend_prepend.
    eexists. reflexivity.
  - rewrite ret_bind. eexists. reflexivity.
Qed.

End Lock.

(** X22. If [RecordFrontLock] reads true once [manager_init] has done
    its clears, [RecordFront] is stored as 1 when [manager_init] ends,
    whatever it held before, unless registration changes it. *)
Theorem lock_forces_record_front (H : Host) (w : World) :
  Store.get_bool (init_cleared H (params w)) "RecordFrontLock" = true →
  (∀ s, (register_fx H s).2 !! "RecordFront" = s !! "RecordFront") →
  params (final (manager_init H w)) !! "RecordFront" = Some "1".
Proof.
  intros Hlock Hreg.
  assert (stable (λ w, params w !! "RecordFront" = Some "1") (manager_init_tail H)) as Htail.
  { unfold manager_init_tail, params_get, register, setenv, path_exists, os_remove,
      params_put_bool.
    repeat (apply stable_bind; [| intros ?]);
      try (by apply stable_put); stable_all; try done.
    unfold with_params in *. cbn [params]. by rewrite Hreg. }
  assert (params (final (manager_init_head H w)) !! "RecordFront" = Some "1") as Hhead.
  { destruct (manager_init_head_cleared H w) as [ev ->]. cbn [prepend final].
    unfold params_get_bool. rewrite bind_bind, get_world_bind, ret_bind.
    cbn [with_params params]. rewrite Hlock.
    match goal with |- context [(?m ≫= ?f) ?w1] =>
      assert (stable (λ w, params w !! "RecordFront" = Some "1") (mret tt ≫= f)) as Hst
    end.
    { apply stable_bind; [apply stable_ret | intros _].
      apply stable_bind; [apply stable_set_unset_params | intros _].
      unfold passive_override, getenv, params_put_bool.
      stable_all; try done. by apply stable_put. }
    unfold params_put_bool, params_put. rewrite bind_bind, modify_bind, emit_bind.
    cbn [prepend final]. rewrite <- ret_bind. apply Hst.
    unfold with_params, Store.put. cbn [params]. apply lookup_insert_eq. }
  unfold manager_init. rewrite bind_run.
  destruct (res (manager_init_head H w)); cbn [prepend final]; try done.
  by apply Htail.
Qed.

Lemma lock_forces_record_front_witness :
  params (final (manager_init Scenario.host Scenario.locked_world)) !! "RecordFront"
  = Some "1".
Proof.
  apply (lock_forces_record_front Scenario.host Scenario.locked_world).
  - vm_compute. reflexivity.
  - intros s. cbn [Scenario.host register_fx snd]. by rewrite lookup_insert_ne.
Defined.

(** X23. Once [manager_init] has returned, [main] removes the prebuilt
    marker and nothing brings it back: whatever [main] does next and
    however it ends, the file [/data/openpilot/prebuilt] does not exist
    afterwards. *)
Theorem prebuilt_removed (H : Host) (ticks : list Tick) (w : World) :
  res (manager_init H w) = Ok tt →
  files (final (main H ticks w)) !! "/data/openpilot/prebuilt" = None.
Proof.
  intros Hinit.
  assert (keeps files (main_run H ticks)) as Hrun.
  { apply main_run_keeps; try done. apply loop_body_keeps_files. }
  unfold main. revert Hrun. generalize (main_run H ticks). intros k Hrun.
  revert Hinit. generalize (manager_init H). intros init Hinit.
  unfold getenv. rewrite bind_bind, get_world_bind, ret_bind.
  rewrite bind_run, Hinit.
  generalize (events (init w)), (final (init w)). intros ev w1.
  cbn [prepend final].
  generalize (bool_decide (is_Some (environ w !! "PREPAREONLY"))). intros prepare_only.
  assert (∀ (k : M unit) w', keeps files k →
            files w' !! "/data/openpilot/prebuilt" = None →
            files (final (k w')) !! "/data/openpilot/prebuilt" = None) as Hrest.
  { intros k' w' Hk Hw'. by rewrite Hk. }
  unfold path_exists. rewrite bind_bind, get_world_bind, ret_bind.
  destruct (bool_decide (is_Some (files w1 !! "/data/openpilot/prebuilt"))) eqn:Hex.
  - unfold os_remove. rewrite bind_bind, modify_bind, emit_bind. cbn [prepend final].
    apply Hrest; [| cbn [with_files files]; apply lookup_delete_eq].
    unfold getitem, proc_start, manager_prepare, for_values, proc_prepare.
    keeps_all; try reflexivity. exact Hrun.
  - rewrite ret_bind. apply Hrest.
    + unfold getitem, proc_start, manager_prepare, for_values, proc_prepare.
      keeps_all; try reflexivity. exact Hrun.
    + apply bool_decide_eq_false_1 in Hex. by apply eq_None_not_Some.
Qed.

Lemma prebuilt_removed_witness :
  files (final (main Scenario.host Scenario.road_trip Scenario.locked_world))
    !! "/data/openpilot/prebuilt" = None.
Proof.
  apply (prebuilt_removed Scenario.host Scenario.road_trip Scenario.locked_world).
  vm_compute. reflexivity.
Defined.
